(** * SonicKit: the VoIP pipeline orchestrator and its jitter buffer

    A shallow embedding of [bindings/python/examples/voip_pipeline.py]
    (class [VoIPAudioPipeline]) and of the jitter buffer it drives.

    The DSP classes of the [sonickit] package are native objects reached
    through the Python binding; the pipeline only calls their methods.  Each
    one is therefore an interface (a type class over the object's hidden
    state), and the pipeline is verified for every implementation of these
    interfaces.  A Python call can mutate its receiver and can raise, so a
    method maps the receiver's state to a new state and an [outcome]. *)

From Stdlib Require Import ZArith List Lia Sorted.
From stdpp Require Import gmap strings list fin_maps.

Local Open Scope Z_scope.

(** ** Values *)

(** [np.ndarray] of [int16] samples. *)
Definition frame := list Z.

(** [bytes], and [np.ndarray] of [uint8]: one byte per G.711 sample. *)
Definition payload := list Byte.byte.

(** ** Exceptions and outcomes *)

Inductive exn : Type :=
| KeyError (key : string)
| ValueError (msg : string)
| RuntimeError (msg : string).

Inductive outcome (A : Type) : Type :=
| Returned (a : A)
| Raised (e : exn).

Arguments Returned {A} a.
Arguments Raised {A} e.

(** A method of an object whose state has type [S]. *)
Definition method (S A : Type) : Type := S -> S * outcome A.

(** ** Collaborator interfaces (the classes imported from [sonickit]) *)

Class EchoCanceller (S : Type) := {
  aec_process : frame -> frame -> method S frame;
  aec_reset : method S unit
}.

Class Denoiser (S : Type) := {
  denoiser_process : frame -> method S frame;
  denoiser_reset : method S unit
}.

Class VAD (S : Type) := {
  vad_is_speech : frame -> method S bool;
  vad_reset : method S unit
}.

Class AGC (S : Type) := {
  agc_process : frame -> method S frame;
  agc_reset : method S unit
}.

Class ComfortNoise (S : Type) := {
  comfort_noise_analyze : frame -> method S unit;
  comfort_noise_reset : method S unit
}.

(** [dB] stands for the float a level query returns. *)
Class AudioLevel (S dB : Type) := {
  level_meter_process : frame -> method S unit;
  level_meter_get_level_db : method S dB;
  level_meter_reset : method S unit
}.

Class G711Codec (S : Type) := {
  codec_encode : frame -> method S payload;
  codec_decode : payload -> method S frame
}.

Class JitterBuffer (S : Type) := {
  jitter_buffer_put : frame -> Z -> Z -> method S unit;
  jitter_buffer_get : Z -> method S frame;
  jitter_buffer_reset : method S unit
}.

(** ** Call log

    Every method call the pipeline makes on a collaborator, with its
    arguments, in the order the calls are made.  The log is ghost state: the
    source does not keep it, the model records it so that the order of the
    stages can be stated. *)

Inductive call : Type :=
| AecProcess (captured playback : frame)
| DenoiserProcess (f : frame)
| VadIsSpeech (f : frame)
| AgcProcess (f : frame)
| LevelMeterProcess (f : frame)
| CodecEncode (f : frame)
| ComfortNoiseAnalyze (f : frame)
| CodecDecode (p : payload)
| JitterBufferPut (f : frame) (timestamp sequence : Z)
| JitterBufferGet (num_samples : Z)
| LevelMeterGetLevelDb
| AecReset
| DenoiserReset
| VadReset
| AgcReset
| ComfortNoiseReset
| LevelMeterReset
| JitterBufferReset.

(** ** The pipeline object *)

Section Pipeline.

Context {Aec Dn Vd Ag Cn Lm dB Cd Jb : Type}.
Context `{!EchoCanceller Aec, !Denoiser Dn, !VAD Vd, !AGC Ag,
          !ComfortNoise Cn, !AudioLevel Lm dB, !G711Codec Cd,
          !JitterBuffer Jb}.

(** The attributes [__init__] sets; [calls] is the ghost call log. *)
Record VoIPAudioPipeline : Type := mkPipeline {
  sample_rate : Z;
  frame_size : Z;
  aec : Aec;
  denoiser : Dn;
  vad : Vd;
  agc : Ag;
  comfort_noise : Cn;
  level_meter : Lm;
  codec : Cd;
  jitter_buffer : Jb;
  stats : gmap string Z;
  calls : list call
}.

Definition set_aec (x : Aec) (p : VoIPAudioPipeline) : VoIPAudioPipeline :=
  mkPipeline (sample_rate p) (frame_size p) x (denoiser p) (vad p) (agc p)
    (comfort_noise p) (level_meter p) (codec p) (jitter_buffer p) (stats p)
    (calls p).

Definition set_denoiser (x : Dn) (p : VoIPAudioPipeline) : VoIPAudioPipeline :=
  mkPipeline (sample_rate p) (frame_size p) (aec p) x (vad p) (agc p)
    (comfort_noise p) (level_meter p) (codec p) (jitter_buffer p) (stats p)
    (calls p).

Definition set_vad (x : Vd) (p : VoIPAudioPipeline) : VoIPAudioPipeline :=
  mkPipeline (sample_rate p) (frame_size p) (aec p) (denoiser p) x (agc p)
    (comfort_noise p) (level_meter p) (codec p) (jitter_buffer p) (stats p)
    (calls p).

Definition set_agc (x : Ag) (p : VoIPAudioPipeline) : VoIPAudioPipeline :=
  mkPipeline (sample_rate p) (frame_size p) (aec p) (denoiser p) (vad p) x
    (comfort_noise p) (level_meter p) (codec p) (jitter_buffer p) (stats p)
    (calls p).

Definition set_comfort_noise (x : Cn) (p : VoIPAudioPipeline)
  : VoIPAudioPipeline :=
  mkPipeline (sample_rate p) (frame_size p) (aec p) (denoiser p) (vad p)
    (agc p) x (level_meter p) (codec p) (jitter_buffer p) (stats p) (calls p).

Definition set_level_meter (x : Lm) (p : VoIPAudioPipeline)
  : VoIPAudioPipeline :=
  mkPipeline (sample_rate p) (frame_size p) (aec p) (denoiser p) (vad p)
    (agc p) (comfort_noise p) x (codec p) (jitter_buffer p) (stats p)
    (calls p).

Definition set_codec (x : Cd) (p : VoIPAudioPipeline) : VoIPAudioPipeline :=
  mkPipeline (sample_rate p) (frame_size p) (aec p) (denoiser p) (vad p)
    (agc p) (comfort_noise p) (level_meter p) x (jitter_buffer p) (stats p)
    (calls p).

Definition set_jitter_buffer (x : Jb) (p : VoIPAudioPipeline)
  : VoIPAudioPipeline :=
  mkPipeline (sample_rate p) (frame_size p) (aec p) (denoiser p) (vad p)
    (agc p) (comfort_noise p) (level_meter p) (codec p) x (stats p) (calls p).

Definition set_stats (x : gmap string Z) (p : VoIPAudioPipeline)
  : VoIPAudioPipeline :=
  mkPipeline (sample_rate p) (frame_size p) (aec p) (denoiser p) (vad p)
    (agc p) (comfort_noise p) (level_meter p) (codec p) (jitter_buffer p) x
    (calls p).

Definition log_call (c : call) (p : VoIPAudioPipeline) : VoIPAudioPipeline :=
  mkPipeline (sample_rate p) (frame_size p) (aec p) (denoiser p) (vad p)
    (agc p) (comfort_noise p) (level_meter p) (codec p) (jitter_buffer p)
    (stats p) (calls p ++ [c]).

(** ** Methods of the pipeline: state and exceptions

    A method body runs on the pipeline object.  An exception ends the body
    at once and keeps every mutation made before it, as in Python. *)

Definition M (A : Type) : Type := method VoIPAudioPipeline A.

Definition ret {A} (a : A) : M A := fun p => (p, Returned a).

Definition bind {A B} (m : M A) (k : A -> M B) : M B :=
  fun p =>
    match m p with
    | (p1, Returned a) => k a p1
    | (p1, Raised e) => (p1, Raised e)
    end.

#[local] Instance pipeline_ret : MRet M := @ret.
#[local] Instance pipeline_bind : MBind M := fun A B k m => bind m k.

(** [self.<attr>.<method>(...)]: log the call, run the method on the
    attribute, store the attribute's new state. *)
Definition invoke {S A} (get : VoIPAudioPipeline -> S)
    (set : S -> VoIPAudioPipeline -> VoIPAudioPipeline)
    (c : call) (m : method S A) : M A :=
  fun p =>
    let '(s1, r) := m (get p) in
    (set s1 (log_call c p), r).

(** [self.stats[key] += n]; a missing key raises [KeyError]. *)
Definition stats_add (key : string) (n : Z) : M unit :=
  fun p =>
    match stats p !! key with
    | Some v => (set_stats (<[key := v + n]> (stats p)) p, Returned tt)
    | None => (p, Raised (KeyError key))
    end.

(** The statistics dictionary of [__init__]. *)
Definition initial_stats : gmap string Z :=
  <["frames_processed" := 0]> (<["speech_frames" := 0]>
  (<["silence_frames" := 0]> (<["bytes_encoded" := 0]>
  (<["packets_sent" := 0]> (<["packets_received" := 0]> ∅))))).

(** [__init__], given the collaborators it constructs (their constructors
    are native code). *)
Definition init (rate frame_duration_ms : Z) (a : Aec) (d : Dn) (v : Vd)
    (g : Ag) (c : Cn) (l : Lm) (k : Cd) (j : Jb) : VoIPAudioPipeline :=
  mkPipeline rate (rate * frame_duration_ms / 1000) a d v g c l k j
    initial_stats [].

Definition process_capture (captured playback : frame) : M (option payload) :=
  echo_cancelled ←
    invoke aec set_aec (AecProcess captured playback)
      (aec_process captured playback);
  denoised ←
    invoke denoiser set_denoiser (DenoiserProcess echo_cancelled)
      (denoiser_process echo_cancelled);
  is_speech ←
    invoke vad set_vad (VadIsSpeech denoised) (vad_is_speech denoised);
  stats_add "frames_processed" 1;;
  if (is_speech : bool) then
    normalized ←
      invoke agc set_agc (AgcProcess denoised) (agc_process denoised);
    invoke level_meter set_level_meter (LevelMeterProcess normalized)
      (level_meter_process normalized);;
    encoded ←
      invoke codec set_codec (CodecEncode normalized)
        (codec_encode normalized);
    stats_add "speech_frames" 1;;
    stats_add "bytes_encoded" (Z.of_nat (length encoded));;
    ret (Some encoded)
  else
    invoke comfort_noise set_comfort_noise (ComfortNoiseAnalyze denoised)
      (comfort_noise_analyze denoised);;
    stats_add "silence_frames" 1;;
    ret None.

Definition send_packet (encoded : payload) (timestamp sequence : Z) : M unit :=
  stats_add "packets_sent" 1.

Definition receive_packet (encoded : payload) (timestamp sequence : Z)
  : M unit :=
  decoded ←
    invoke codec set_codec (CodecDecode encoded) (codec_decode encoded);
  invoke jitter_buffer set_jitter_buffer
    (JitterBufferPut decoded timestamp sequence)
    (jitter_buffer_put decoded timestamp sequence);;
  stats_add "packets_received" 1.

Definition get_playback_audio : M frame :=
  fun p =>
    invoke jitter_buffer set_jitter_buffer (JitterBufferGet (frame_size p))
      (jitter_buffer_get (frame_size p)) p.

Definition get_level_db : M dB :=
  invoke level_meter set_level_meter LevelMeterGetLevelDb
    level_meter_get_level_db.

Definition reset : M unit :=
  invoke aec set_aec AecReset aec_reset;;
  invoke denoiser set_denoiser DenoiserReset denoiser_reset;;
  invoke vad set_vad VadReset vad_reset;;
  invoke agc set_agc AgcReset agc_reset;;
  invoke comfort_noise set_comfort_noise ComfortNoiseReset
    comfort_noise_reset;;
  invoke level_meter set_level_meter LevelMeterReset level_meter_reset;;
  invoke jitter_buffer set_jitter_buffer JitterBufferReset
    jitter_buffer_reset.

End Pipeline.

(** ** The jitter buffer

    [sonickit.JitterBuffer] is native code behind the binding; the source
    tree holds only its callers and tests.  The definitions of this module
    follow section 4.1 of the specification. *)

Module JitterBufferSpec.

(** Modelled from the spec: the delay estimator of the missing native
    jitter buffer.  The spec gives only its role (it follows the jitter of
    the arrivals and proposes a target delay), so it is an interface: one
    observation per accepted [put], from the packet's timestamp and
    sequence number, yielding the proposed delay in milliseconds. *)
Class DelayEstimator (E : Type) := {
  estimator_initial : E;
  estimator_observe : Z -> Z -> E -> E * Z
}.

(** Modelled from the spec: the configuration of the missing native
    jitter buffer, the four constructor arguments its callers pass and the
    buffer capacity of section 4.1. *)
Record config : Type := mkConfig {
  cfg_sample_rate : Z;
  cfg_frame_size_ms : Z;
  cfg_min_delay_ms : Z;
  cfg_max_delay_ms : Z;
  cfg_capacity : nat
}.

(** Modelled from the spec: the configuration errors of section 7 that
    make construction of the missing native jitter buffer fail. *)
Definition valid_config (c : config) : bool :=
  (0 <? cfg_sample_rate c) && (0 <? cfg_frame_size_ms c)
  && (0 <? cfg_sample_rate c * cfg_frame_size_ms c / 1000)
  && (0 <=? cfg_min_delay_ms c)
  && (cfg_min_delay_ms c <=? cfg_max_delay_ms c)
  && (0 <? Z.of_nat (cfg_capacity c)).

Section WithEstimator.

Context {E : Type} `{!DelayEstimator E}.

(** Modelled from the spec: the state of the missing native jitter buffer
    (section 4.1): pending frames keyed by timestamp, the playout cursor,
    the target delay, and the counters of section 3. *)
Record t : Type := mkBuffer {
  cfg : config;
  slots : gmap Z frame;
  cursor : Z;
  target_delay_ms : Z;
  estimator : E;
  late_count : Z;
  underrun_count : Z;
  duplicate_count : Z
}.

(** Modelled from the spec: the native frame size of the missing jitter
    buffer, in samples. *)
Definition frame_samples (b : t) : Z :=
  cfg_sample_rate (cfg b) * cfg_frame_size_ms (cfg b) / 1000.

(** Modelled from the spec: the target delay of the missing jitter buffer
    in sample-clock ticks. *)
Definition delay_ticks (b : t) : Z :=
  target_delay_ms b * cfg_sample_rate (cfg b) / 1000.

(** Modelled from the spec: the missing constructor and the state [reset]
    returns to; construction fails on a configuration error.  The cursor
    starts at 0 (the scenarios of section 8 play timestamp 0 first); the
    initial delay is taken to be the configured minimum. *)
Definition fresh (c : config) : t :=
  mkBuffer c ∅ 0 (cfg_min_delay_ms c) estimator_initial 0 0 0.

(** Modelled from the spec: construction of the missing jitter buffer fails
    fast on a configuration error (section 7). *)
Definition create (c : config) : outcome t :=
  if valid_config c then Returned (fresh c)
  else Raised (ValueError "invalid jitter buffer configuration").

(** Modelled from the spec: the clamp of the missing estimator's proposal
    to [[min_delay_ms, max_delay_ms]]. *)
Definition clamp_delay (c : config) (d : Z) : Z :=
  Z.max (cfg_min_delay_ms c) (Z.min (cfg_max_delay_ms c) d).

(** Modelled from the spec: the oldest pending slot of the missing jitter
    buffer, the one capacity exhaustion evicts. *)
Definition oldest (m : gmap Z frame) : option Z :=
  match (map_to_list m).*1 with
  | [] => None
  | k :: ks => Some (foldr Z.min k ks)
  end.

(** Modelled from the spec: the eviction the missing jitter buffer makes on
    capacity exhaustion. *)
Definition evict_oldest (m : gmap Z frame) : gmap Z frame :=
  match oldest m with
  | Some k => delete k m
  | None => m
  end.

(** Modelled from the spec: [put] of the missing native jitter buffer
    (section 4.1).  A timestamp that already has a slot is a duplicate; one
    older than the cursor minus the target delay is late; any other frame
    is stored, after evicting the oldest slot when the buffer is full, and
    the estimator observes it. *)
Definition put (f : frame) (timestamp sequence : Z) (b : t) : t :=
  match slots b !! timestamp with
  | Some _ =>
      mkBuffer (cfg b) (slots b) (cursor b) (target_delay_ms b) (estimator b)
        (late_count b) (underrun_count b) (duplicate_count b + 1)
  | None =>
      if timestamp <? cursor b - delay_ticks b then
        mkBuffer (cfg b) (slots b) (cursor b) (target_delay_ms b)
          (estimator b) (late_count b + 1) (underrun_count b)
          (duplicate_count b)
      else
        let room :=
          if decide (size (slots b) < cfg_capacity (cfg b))%nat
          then slots b else evict_oldest (slots b) in
        let '(e1, proposal) := estimator_observe timestamp sequence
                                 (estimator b) in
        mkBuffer (cfg b) (<[timestamp := f]> room) (cursor b)
          (clamp_delay (cfg b) proposal) e1
          (late_count b) (underrun_count b) (duplicate_count b)
  end.

(** Modelled from the spec: one frame-size chunk of [get] of the missing
    native jitter buffer: the slot at the cursor is consumed, or silence is
    substituted and the underrun counted; the cursor advances by one
    frame. *)
Definition get_chunk (b : t) : t * frame :=
  match slots b !! cursor b with
  | Some f =>
      (mkBuffer (cfg b) (delete (cursor b) (slots b))
         (cursor b + frame_samples b) (target_delay_ms b) (estimator b)
         (late_count b) (underrun_count b) (duplicate_count b), f)
  | None =>
      (mkBuffer (cfg b) (slots b) (cursor b + frame_samples b)
         (target_delay_ms b) (estimator b) (late_count b)
         (underrun_count b + 1) (duplicate_count b),
       replicate (Z.to_nat (frame_samples b)) 0)
  end.

(** Modelled from the spec: [k] chunks in a row of the missing jitter
    buffer's [get], joined in the order they are played. *)
Fixpoint get_chunks (k : nat) (b : t) : t * frame :=
  match k with
  | O => (b, [])
  | S k' =>
      let '(b1, chunk) := get_chunk b in
      let '(b2, rest) := get_chunks k' b1 in
      (b2, chunk ++ rest)
  end.

(** Modelled from the spec: [get] of the missing native jitter buffer
    (section 4.1), for a positive multiple of the frame size.  The spec's
    alternative for other lengths (splitting stored frames) is not
    detailed there; such a request is refused here and changes nothing. *)
Definition get (num_samples : Z) (b : t) : t * outcome frame :=
  if (0 <? num_samples) && (0 <? frame_samples b)
     && (num_samples mod frame_samples b =? 0)
  then
    let '(b1, out) :=
      get_chunks (Z.to_nat (num_samples / frame_samples b)) b in
    (b1, Returned out)
  else (b, Raised (ValueError "num_samples")).

(** Modelled from the spec: [reset] of the missing native jitter buffer:
    all slots dropped, cursor, delay and counters back to their initial
    values. *)
Definition reset (b : t) : t := fresh (cfg b).

(** Every stored frame has the native frame size (the Frame invariant of
    section 3). *)
Definition frames_sized (b : t) : Prop :=
  forall ts f, slots b !! ts = Some f -> Z.of_nat (length f) = frame_samples b.

(** The configuration passed construction and the target delay is within
    its bounds. *)
Definition wf (b : t) : Prop :=
  valid_config (cfg b) = true
  /\ cfg_min_delay_ms (cfg b) <= target_delay_ms b <= cfg_max_delay_ms (cfg b).

(** A history of calls on one buffer. *)
Inductive op : Type :=
| Put (f : frame) (timestamp sequence : Z)
| Get (num_samples : Z).

Definition step (b : t) (o : op) : t :=
  match o with
  | Put f ts sq => put f ts sq b
  | Get n => fst (get n b)
  end.

Definition run (ops : list op) (b : t) : t := foldl step b ops.

(** The frames [fs], one per frame-size step from timestamp [start]. *)
Definition schedule (start step : Z) (fs : list frame) : list (Z * frame) :=
  imap (fun i f => (start + Z.of_nat i * step, f)) fs.

(** Packets as they arrive: timestamp, sequence number, decoded frame. *)
Definition packet : Type := Z * Z * frame.

Definition put_all (arrivals : list packet) (b : t) : t :=
  foldl (fun b '(ts, sq, f) => put f ts sq b) b arrivals.

Definition timed (p : packet) : Z * frame := (p.1.1, p.2).

(** What [m] frame-size steps from [start] play out of the pending frames:
    at each step the frame pending at that timestamp, or a frame of
    silence. *)
Definition playout (pending : gmap Z frame) (start step : Z) (m : nat)
  : frame :=
  concat ((fun k => default (replicate (Z.to_nat step) 0)
                      (pending !! (start + Z.of_nat k * step)))
            <$> seq 0 m).

(** Every pending frame is behind the cursor. *)
Definition behind (b : t) : Prop :=
  forall ts, is_Some (slots b !! ts) -> ts < cursor b.

(** Modelled from the spec: the missing jitter buffer seen through the
    calls the pipeline makes on it; late, duplicate and starved calls are
    not errors (section 7). *)
#[global] Instance as_collaborator : JitterBuffer t := {
  jitter_buffer_put f ts sq b := (put f ts sq b, Returned tt);
  jitter_buffer_get n b := get n b;
  jitter_buffer_reset b := (reset b, Returned tt)
}.

End WithEstimator.

Arguments t E : clear implicits.

End JitterBufferSpec.

Arguments VoIPAudioPipeline : clear implicits.

(** ** Vocabulary of the statements *)

(** What a method call does on a given receiver. *)
Definition returns {S A} (m : method S A) (s : S) (a : A) : Prop :=
  (m s).2 = Returned a.

Definition raises {S A} (m : method S A) (s : S) (e : exn) : Prop :=
  (m s).2 = Raised e.

(** A statistics counter grew by [n] between two dictionaries; a counter is
    the same in both. *)
Definition counted (key : string) (n : Z) (before after : gmap string Z)
  : Prop :=
  exists v, before !! key = Some v /\ after !! key = Some (v + n).

Definition kept (key : string) (before after : gmap string Z) : Prop :=
  after !! key = before !! key.

(** The calls only the speech branch of [process_capture] makes. *)
Definition speech_branch_call (c : call) : bool :=
  match c with
  | AgcProcess _ | LevelMeterProcess _ | CodecEncode _ => true
  | _ => false
  end.

(** A fault of a collaborator of the speech branch, on the denoised frame
    [denoised]: the AGC raises, or the level meter raises on the AGC's
    output, or the codec raises on it after the level meter returned. *)
Definition speech_branch_fault {Ag Lm dB Cd : Type}
    `{!AGC Ag, !AudioLevel Lm dB, !G711Codec Cd}
    (denoised : frame) (g : Ag) (l : Lm) (k : Cd) (e : exn) : Prop :=
  raises (agc_process denoised) g e
  \/ (exists normalized,
        returns (agc_process denoised) g normalized
        /\ raises (level_meter_process normalized) l e)
  \/ (exists normalized,
        returns (agc_process denoised) g normalized
        /\ returns (level_meter_process normalized) l tt
        /\ raises (codec_encode normalized) k e).

(** The caller's loop: one [process_capture] per pair of frames. *)
Fixpoint process_all {Aec Dn Vd Ag Cn Lm dB Cd Jb : Type}
    `{!EchoCanceller Aec, !Denoiser Dn, !VAD Vd, !AGC Ag, !ComfortNoise Cn,
      !AudioLevel Lm dB, !G711Codec Cd, !JitterBuffer Jb}
    (inputs : list (frame * frame))
  : method (VoIPAudioPipeline Aec Dn Vd Ag Cn Lm Cd Jb)
      (list (option payload)) :=
  match inputs with
  | [] => ret []
  | (captured, playback) :: rest =>
      bind (process_capture captured playback) (fun r =>
      bind (process_all rest) (fun rs => ret (r :: rs)))
  end.

(** ** Sample collaborators

    Small implementations of the interfaces, on which the statements below
    are exercised. *)

Module Demo.

(** Each object counts the calls it has served. *)
Record aec_state := AecState { aec_calls : Z }.
Record denoiser_state := DenoiserState { denoiser_calls : Z }.
Record vad_state := VadState { vad_calls : Z }.
Record agc_state := AgcState { agc_calls : Z }.
Record comfort_state := ComfortState { comfort_calls : Z }.
Record level_state := LevelState { level_peak : Z }.
Record codec_state := CodecState { codec_calls : Z }.
Record broken_agc_state := BrokenAgc { broken_calls : Z }.

#[global] Instance demo_aec : EchoCanceller aec_state := {
  aec_process captured playback s :=
    (AecState (aec_calls s + 1), Returned captured);
  aec_reset s := (AecState 0, Returned tt)
}.

#[global] Instance demo_denoiser : Denoiser denoiser_state := {
  denoiser_process f s := (DenoiserState (denoiser_calls s + 1), Returned f);
  denoiser_reset s := (DenoiserState 0, Returned tt)
}.

(** Speech is any frame with a sample louder than 1000. *)
#[global] Instance demo_vad : VAD vad_state := {
  vad_is_speech f s :=
    (VadState (vad_calls s + 1),
     Returned (existsb (fun x => 1000 <? Z.abs x) f));
  vad_reset s := (VadState 0, Returned tt)
}.

#[global] Instance demo_agc : AGC agc_state := {
  agc_process f s :=
    (AgcState (agc_calls s + 1), Returned (map (fun x => 2 * x) f));
  agc_reset s := (AgcState 0, Returned tt)
}.

(** An AGC that fails on every frame. *)
#[global] Instance broken_agc : AGC broken_agc_state := {
  agc_process f s :=
    (BrokenAgc (broken_calls s + 1), Raised (RuntimeError "agc"));
  agc_reset s := (BrokenAgc 0, Returned tt)
}.

#[global] Instance demo_comfort : ComfortNoise comfort_state := {
  comfort_noise_analyze f s :=
    (ComfortState (comfort_calls s + 1), Returned tt);
  comfort_noise_reset s := (ComfortState 0, Returned tt)
}.

(** The meter keeps the peak of the last frame it saw. *)
#[global] Instance demo_level : AudioLevel level_state Z := {
  level_meter_process f s :=
    (LevelState (foldr (fun x acc => Z.max (Z.abs x) acc) 0 f), Returned tt);
  level_meter_get_level_db s := (s, Returned (level_peak s));
  level_meter_reset s := (LevelState 0, Returned tt)
}.

(** One byte per sample: the sign only. *)
#[global] Instance demo_codec : G711Codec codec_state := {
  codec_encode f s :=
    (CodecState (codec_calls s + 1),
     Returned (map (fun x => if x <? 0 then Byte.x80 else Byte.x00) f));
  codec_decode bs s :=
    (CodecState (codec_calls s + 1),
     Returned (map (fun b => match b with
                             | Byte.x80 => -1
                             | _ => 1
                             end) bs))
}.

(** An estimator that always proposes 60 ms. *)
#[global] Instance demo_estimator : JitterBufferSpec.DelayEstimator unit := {
  estimator_initial := tt;
  estimator_observe ts sq e := (e, 60)
}.

(** 8 kHz, 1 ms frames: 8 samples per frame. *)
Definition demo_config : JitterBufferSpec.config :=
  JitterBufferSpec.mkConfig 8000 1 40 200 4.

Definition demo_buffer : JitterBufferSpec.t unit :=
  JitterBufferSpec.fresh demo_config.

Definition demo_pipeline
  : VoIPAudioPipeline aec_state denoiser_state vad_state agc_state
      comfort_state level_state codec_state (JitterBufferSpec.t unit) :=
  init 8000 1 (AecState 0) (DenoiserState 0) (VadState 0) (AgcState 0)
    (ComfortState 0) (LevelState 0) (CodecState 0) demo_buffer.

Definition broken_pipeline
  : VoIPAudioPipeline aec_state denoiser_state vad_state broken_agc_state
      comfort_state level_state codec_state (JitterBufferSpec.t unit) :=
  init 8000 1 (AecState 0) (DenoiserState 0) (VadState 0) (BrokenAgc 0)
    (ComfortState 0) (LevelState 0) (CodecState 0) demo_buffer.

Definition loud : frame := [2000; -2000; 2000; -2000; 2000; -2000; 2000; -2000].
Definition quiet : frame := [3; -3; 3; -3; 3; -3; 3; -3].
Definition hush : frame := [0; 0; 0; 0; 0; 0; 0; 0].

Definition f0 : frame := [10; 11; 12; 13; 14; 15; 16; 17].

(** A call with speech, then two calls with silence. *)
Definition loud_payload : payload :=
  [Byte.x00; Byte.x80; Byte.x00; Byte.x80; Byte.x00; Byte.x80; Byte.x00;
   Byte.x80].

Definition after_loud := (process_capture loud hush demo_pipeline).1.

Definition after_quiet := (process_capture quiet hush demo_pipeline).1.

Definition after_silence :=
  (process_all [(quiet, hush); (quiet, hush)] after_loud).1.

(** The same packet received twice: the second one is a duplicate. *)
Definition after_first := (receive_packet loud_payload 0 0 demo_pipeline).1.
Definition after_second := (receive_packet loud_payload 0 0 after_first).1.


(** A buffer holding one frame, at timestamp 0. *)
Definition one_frame_buffer : JitterBufferSpec.t unit :=
  JitterBufferSpec.put f0 0 0 demo_buffer.

(** The reordering scenario: 16 kHz, 20 ms frames of 320 samples, the
    frames of timestamps 0, 320 and 640 arriving in the order 0, 640,
    320. *)
Definition scenario_config : JitterBufferSpec.config :=
  JitterBufferSpec.mkConfig 16000 20 40 200 8.

Definition scenario_buffer : JitterBufferSpec.t unit :=
  JitterBufferSpec.fresh scenario_config.

Definition s0 : frame := replicate 320 1.
Definition s1 : frame := replicate 320 2.
Definition s2 : frame := replicate 320 3.

Definition scenario_arrivals : list JitterBufferSpec.packet :=
  [(0, 0, s0); (640, 2, s2); (320, 1, s1)].

(** The first frame is late for its playout: one frame of silence has been
    played when it arrives, still inside the delay window (40 ms are 640
    ticks). *)
Definition played_one_frame : JitterBufferSpec.t unit :=
  (JitterBufferSpec.get 320 scenario_buffer).1.

Definition with_late_frame : JitterBufferSpec.t unit :=
  JitterBufferSpec.put s0 0 0 played_one_frame.

(** The three frames of the scenario, by timestamp. *)
Definition scenario_due : list (Z * frame) :=
  [(0, s0); (320, s1); (640, s2)].

End Demo.

(** The value of a counter of the statistics dictionary, 0 for a key that
    is absent. *)
Definition counter (key : string) (st : gmap string Z) : Z :=
  default 0 (st !! key).

(** The keys [__init__] puts in the statistics dictionary. *)
Definition counter_names : list string :=
  ["frames_processed"; "speech_frames"; "silence_frames"; "bytes_encoded";
   "packets_sent"; "packets_received"].

(** No counter is lost and none decreases. *)
Definition grows (before after : gmap string Z) : Prop :=
  forall key v, before !! key = Some v ->
                exists w, after !! key = Some w /\ v <= w.

(** ** The queries of the pipeline and the simulated call

    [get_speech_probability], [get_jitter_stats] and the loop of
    [simulate_voip_call].  The two queries read a collaborator; they are not
    entered in the call log, which lists the processing calls only. *)

Class VADProbability (S P : Type) := {
  vad_get_probability : method S P
}.

Class JitterBufferStats (S D : Type) := {
  jitter_buffer_get_stats : method S D
}.

Section Simulation.

Context {Aec Dn Vd Ag Cn Lm dB Cd Jb P D : Type}.
Context `{!EchoCanceller Aec, !Denoiser Dn, !VAD Vd, !AGC Ag,
          !ComfortNoise Cn, !AudioLevel Lm dB, !G711Codec Cd,
          !JitterBuffer Jb, !VADProbability Vd P, !JitterBufferStats Jb D}.

Abbreviation pipeline := (VoIPAudioPipeline Aec Dn Vd Ag Cn Lm Cd Jb).

(** [self.<attr>.<query>()]: run the query on the attribute and store the
    attribute's state. *)
Definition query {S A} (get : pipeline -> S) (set : S -> pipeline -> pipeline)
    (m : method S A) : method pipeline A :=
  fun p =>
    let '(s1, r) := m (get p) in
    (set s1 p, r).

Definition get_speech_probability : method pipeline P :=
  query vad set_vad vad_get_probability.

Definition get_jitter_stats : method pipeline D :=
  query jitter_buffer set_jitter_buffer jitter_buffer_get_stats.

(** [if encoded:] on the result of [process_capture]: [None] and the empty
    [bytes] are both false. *)
Definition truthy (encoded : option payload) : bool :=
  match encoded with
  | Some (_ :: _) => true
  | _ => false
  end.

(** One iteration of the loop of [simulate_voip_call], for the frame number
    [i].  The captured and playback frames are inputs (the source draws them
    from a random generator); printing is left out. *)
Definition simulate_frame (i : Z) (captured playback : frame)
    (sequence timestamp : Z) : method pipeline (Z * Z) :=
  bind (process_capture captured playback) (fun encoded =>
  bind (if truthy encoded then
          bind (send_packet (default [] encoded) timestamp sequence) (fun _ =>
          bind (receive_packet (default [] encoded) timestamp sequence)
            (fun _ => ret (sequence + 1)))
        else ret sequence) (fun sequence1 =>
  bind (fun p => (p, Returned (timestamp + frame_size p))) (fun timestamp1 =>
  bind get_playback_audio (fun playback_audio =>
  bind (if (i + 1) mod 50 =? 0 then
          bind get_level_db (fun level =>
          bind get_speech_probability (fun prob => ret tt))
        else ret tt) (fun _ =>
  ret (sequence1, timestamp1)))))).

(** The loop, from frame number [i] on. *)
Fixpoint simulate_frames (i : Z) (inputs : list (frame * frame))
    (sequence timestamp : Z) : method pipeline (Z * Z) :=
  match inputs with
  | [] => ret (sequence, timestamp)
  | (captured, playback) :: rest =>
      bind (simulate_frame i captured playback sequence timestamp)
        (fun st => simulate_frames (i + 1) rest st.1 st.2)
  end.

(** [sequence = 0], [timestamp = 0], then the loop. *)
Definition simulate (inputs : list (frame * frame)) : method pipeline (Z * Z) :=
  simulate_frames 0 inputs 0 0.

(** A use of the pipeline object: one call of one of its methods.  The
    caller may catch what the call raises; the object keeps the state the
    call left. *)
Inductive request : Type :=
| ProcessCapture (captured playback : frame)
| SendPacket (encoded : payload) (timestamp sequence : Z)
| ReceivePacket (encoded : payload) (timestamp sequence : Z)
| GetPlaybackAudio
| GetLevelDb
| GetSpeechProbability
| GetJitterStats
| Reset.

Definition perform (r : request) (p : pipeline) : pipeline :=
  match r with
  | ProcessCapture captured playback => (process_capture captured playback p).1
  | SendPacket encoded ts sq => (send_packet encoded ts sq p).1
  | ReceivePacket encoded ts sq => (receive_packet encoded ts sq p).1
  | GetPlaybackAudio => (get_playback_audio p).1
  | GetLevelDb => (get_level_db p).1
  | GetSpeechProbability => (get_speech_probability p).1
  | GetJitterStats => (get_jitter_stats p).1
  | Reset => (reset p).1
  end.

Definition history (rs : list request) (p : pipeline) : pipeline :=
  foldl (fun p r => perform r p) p rs.

(** The (timestamp, sequence) pairs of the packets handed to the jitter
    buffer, in the order of the calls. *)
Definition put_stamps (cs : list call) : list (Z * Z) :=
  omap (fun c => match c with
                 | JitterBufferPut _ ts sq => Some (ts, sq)
                 | _ => None
                 end) cs.

(** The statistics before and after a call. *)
Definition stats_grow (p q : pipeline) : Prop := grows (stats p) (stats q).

(** What the receive path works on is the same before and after. *)
Definition receive_side_kept (p q : pipeline) : Prop :=
  jitter_buffer q = jitter_buffer p
  /\ sample_rate q = sample_rate p
  /\ frame_size q = frame_size p
  /\ kept "packets_sent" (stats p) (stats q)
  /\ kept "packets_received" (stats p) (stats q).

(** What the capture path works on, the codec apart, is the same before
    and after. *)
Definition capture_side_kept (p q : pipeline) : Prop :=
  aec q = aec p /\ denoiser q = denoiser p /\ vad q = vad p
  /\ agc q = agc p /\ comfort_noise q = comfort_noise p
  /\ level_meter q = level_meter p
  /\ sample_rate q = sample_rate p
  /\ frame_size q = frame_size p
  /\ kept "frames_processed" (stats p) (stats q)
  /\ kept "speech_frames" (stats p) (stats q)
  /\ kept "silence_frames" (stats p) (stats q)
  /\ kept "bytes_encoded" (stats p) (stats q).

(** Where an exception of [process_capture] comes from: the collaborator
    call that raised it, the calls before it having returned. *)
Definition capture_fault (captured playback : frame) (p : pipeline) (e : exn)
  : Prop :=
  raises (aec_process captured playback) (aec p) e
  \/ exists echo_cancelled,
       returns (aec_process captured playback) (aec p) echo_cancelled
       /\ (raises (denoiser_process echo_cancelled) (denoiser p) e
           \/ exists denoised,
                returns (denoiser_process echo_cancelled) (denoiser p) denoised
                /\ (raises (vad_is_speech denoised) (vad p) e
                    \/ (returns (vad_is_speech denoised) (vad p) true
                        /\ speech_branch_fault denoised (agc p)
                             (level_meter p) (codec p) e)
                    \/ (returns (vad_is_speech denoised) (vad p) false
                        /\ raises (comfort_noise_analyze denoised)
                             (comfort_noise p) e))).

(** A fault of one of the first three stages of [process_capture]. *)
Definition front_end_fault (captured playback : frame) (p : pipeline)
    (e : exn) : Prop :=
  raises (aec_process captured playback) (aec p) e
  \/ (exists echo_cancelled,
        returns (aec_process captured playback) (aec p) echo_cancelled
        /\ raises (denoiser_process echo_cancelled) (denoiser p) e)
  \/ (exists echo_cancelled denoised,
        returns (aec_process captured playback) (aec p) echo_cancelled
        /\ returns (denoiser_process echo_cancelled) (denoiser p) denoised
        /\ raises (vad_is_speech denoised) (vad p) e).

(** A fault on the receive path: the codec raises on the payload, or the
    jitter buffer raises on the decoded frame. *)
Definition receive_fault (encoded : payload) (timestamp sequence : Z)
    (p : pipeline) (e : exn) : Prop :=
  raises (codec_decode encoded) (codec p) e
  \/ exists decoded,
       returns (codec_decode encoded) (codec p) decoded
       /\ raises (jitter_buffer_put decoded timestamp sequence)
            (jitter_buffer p) e.

End Simulation.

(** The reset calls of [reset], in the order of the source. *)
Definition reset_calls : list call :=
  [AecReset; DenoiserReset; VadReset; AgcReset; ComfortNoiseReset;
   LevelMeterReset; JitterBufferReset].

(** The payload lengths a run of [process_capture] results adds to
    [bytes_encoded]. *)
Definition total_bytes (rs : list (option payload)) : Z :=
  foldr (fun r acc => Z.of_nat (length (default [] r)) + acc) 0 rs.

Definition count_speech (rs : list (option payload)) : Z :=
  Z.of_nat (length (filter (fun r => is_Some r) rs)).

Definition count_silence (rs : list (option payload)) : Z :=
  Z.of_nat (length (filter (fun r => r = None) rs)).

(** ** More sample collaborators *)

Module DemoCall.

Import Demo.

Record eager_vad_state := EagerVad { eager_calls : Z }.
Record deaf_vad_state := DeafVad { deaf_calls : Z }.
Record broken_codec_state := BrokenCodec { broken_codec_calls : Z }.

#[global] Instance demo_vad_probability : VADProbability vad_state Z := {
  vad_get_probability s := (s, Returned (vad_calls s mod 2))
}.

(** A VAD that takes every frame as speech. *)
#[global] Instance eager_vad : VAD eager_vad_state := {
  vad_is_speech f s := (EagerVad (eager_calls s + 1), Returned true);
  vad_reset s := (EagerVad 0, Returned tt)
}.

#[global] Instance eager_vad_probability : VADProbability eager_vad_state Z
  := {
  vad_get_probability s := (s, Returned 1)
}.

(** A VAD that fails on every frame. *)
#[global] Instance deaf_vad : VAD deaf_vad_state := {
  vad_is_speech f s := (DeafVad (deaf_calls s + 1), Raised (RuntimeError "vad"));
  vad_reset s := (DeafVad 0, Raised (RuntimeError "vad"))
}.

(** A codec that fails to decode. *)
#[global] Instance broken_codec : G711Codec broken_codec_state := {
  codec_encode f s :=
    (BrokenCodec (broken_codec_calls s + 1), Returned (map (fun _ => Byte.x00) f));
  codec_decode bs s :=
    (BrokenCodec (broken_codec_calls s + 1), Raised (ValueError "payload"))
}.

(** The counters of the jitter buffer as [get_stats] reports them. *)
#[global] Instance demo_jitter_stats
  : JitterBufferStats (JitterBufferSpec.t unit) (list (string * Z)) := {
  jitter_buffer_get_stats b :=
    (b, Returned [("late", JitterBufferSpec.late_count b);
                  ("underruns", JitterBufferSpec.underrun_count b);
                  ("duplicates", JitterBufferSpec.duplicate_count b)])
}.

Definition eager_pipeline
  : VoIPAudioPipeline aec_state denoiser_state eager_vad_state agc_state
      comfort_state level_state codec_state (JitterBufferSpec.t unit) :=
  init 8000 1 (AecState 0) (DenoiserState 0) (EagerVad 0) (AgcState 0)
    (ComfortState 0) (LevelState 0) (CodecState 0) demo_buffer.

Definition deaf_pipeline
  : VoIPAudioPipeline aec_state denoiser_state deaf_vad_state agc_state
      comfort_state level_state codec_state (JitterBufferSpec.t unit) :=
  init 8000 1 (AecState 0) (DenoiserState 0) (DeafVad 0) (AgcState 0)
    (ComfortState 0) (LevelState 0) (CodecState 0) demo_buffer.

Definition undecodable_pipeline
  : VoIPAudioPipeline aec_state denoiser_state vad_state agc_state
      comfort_state level_state broken_codec_state (JitterBufferSpec.t unit) :=
  init 8000 1 (AecState 0) (DenoiserState 0) (VadState 0) (AgcState 0)
    (ComfortState 0) (LevelState 0) (BrokenCodec 0) demo_buffer.

(** Three frames of a call: speech, silence, speech. *)
Definition three_frames : list (frame * frame) :=
  [(loud, hush); (quiet, hush); (loud, hush)].

Definition after_three := (simulate three_frames demo_pipeline).1.

Definition after_two_captures :=
  (process_all [(loud, hush); (quiet, hush)] demo_pipeline).1.

Definition after_empty_frame := (simulate_frame 0 [] [] 5 40 eager_pipeline).1.

(** Two frames of 160 samples. *)
Definition two_frames_audio : list Z := replicate 160 7 ++ replicate 160 9.

End DemoCall.

(** ** The loops of the example scripts

    [examples/basic_processing.py] and [examples/effects_processing.py] cut
    an array of samples into frames for a native processor, and scan the
    processed samples.  The native calls are outside the model; the frames
    they receive and the scans are modelled here. *)

Module Examples.

(** [range(0, stop, step)] for a positive [step]: 0, [step], [2 * step], ...
    below [stop]. *)
Definition py_range (stop step : Z) : list Z :=
  (fun k => Z.of_nat k * step) <$> seq 0 (Z.to_nat ((stop + step - 1) / step)).

(** [a[i:j]] for non-negative [i] and [j]; [j] beyond the end is clipped. *)
Definition py_slice (i j : Z) (a : list Z) : list Z :=
  drop (Z.to_nat i) (take (Z.to_nat j) a).

(** [demonstrate_dtmf]: the frames handed to [detector.process], one per
    [i] of [range(0, len(audio) - frame_size, frame_size)]. *)
Definition detector_frames (frame_size : Z) (audio : list Z) : list (list Z) :=
  (fun i => py_slice i (i + frame_size) audio)
    <$> py_range (Z.of_nat (length audio) - frame_size) frame_size.

(** [demonstrate_delay]: the frames handed to [delay.process], one per [i]
    of [range(0, len(audio), frame_size)], each ending at
    [min(i + frame_size, len(audio))]. *)
Definition delay_frames (frame_size : Z) (audio : list Z) : list (list Z) :=
  (fun i => py_slice i (Z.min (i + frame_size) (Z.of_nat (length audio))) audio)
    <$> py_range (Z.of_nat (length audio)) frame_size.

(** [abs] of an [int16] sample stays an [int16]: the most negative value
    has no positive counterpart and is returned as it is. *)
Definition abs16 (x : Z) : Z :=
  if x =? -32768 then -32768 else Z.abs x.

(** [demonstrate_reverb]: the scan [for i in range(len(output) - 1, 0, -1)]
    from the index [i] down, stopping at the first sample louder than the
    threshold; [fallback] is the value [tail_samples] had before the loop. *)
Fixpoint scan_down (output : list Z) (threshold : Z) (i : nat) (fallback : Z)
  : Z :=
  match i with
  | O => fallback
  | S j =>
      if threshold <? abs16 (nth i output 0) then Z.of_nat i
      else scan_down output threshold j fallback
  end.

Definition tail_samples (output : list Z) (threshold : Z) : Z :=
  scan_down output threshold (length output - 1) (Z.of_nat (length output)).

End Examples.

(** * Properties of the pipeline orchestrator *)

Section PipelineFacts.

Context {Aec Dn Vd Ag Cn Lm dB Cd Jb : Type}.
Context `{!EchoCanceller Aec, !Denoiser Dn, !VAD Vd, !AGC Ag,
          !ComfortNoise Cn, !AudioLevel Lm dB, !G711Codec Cd,
          !JitterBuffer Jb}.

Abbreviation pipeline := (VoIPAudioPipeline Aec Dn Vd Ag Cn Lm Cd Jb).

Implicit Types p q : pipeline.

(** *** How a method body runs *)

Lemma bind_returned {A B} (m : M A) (k : A -> M B) p q (b : B) :
  bind m k p = (q, Returned b) ->
  exists a p1, m p = (p1, Returned a) /\ k a p1 = (q, Returned b).
Proof.
  unfold bind. destruct (m p) as [p1 [a|e]]; intros Hk.
  - exists a, p1. split; [reflexivity | exact Hk].
  - discriminate Hk.
Qed.

Lemma bind_step {A B} (m : M A) (k : A -> M B) p p1 (a : A) :
  m p = (p1, Returned a) -> bind m k p = k a p1.
Proof. intros Hm. unfold bind. rewrite Hm. reflexivity. Qed.

Lemma bind_raised {A B} (m : M A) (k : A -> M B) p p1 e :
  m p = (p1, Raised e) -> bind m k p = (p1, Raised e).
Proof. intros Hm. unfold bind. rewrite Hm. reflexivity. Qed.

Lemma invoke_returned {S A} (get : pipeline -> S) set c (m : method S A)
    p q (a : A) :
  invoke get set c m p = (q, Returned a) ->
  returns m (get p) a /\ q = set (m (get p)).1 (log_call c p).
Proof.
  unfold invoke, returns. destruct (m (get p)) as [s1 r]. simpl.
  intros [= <- ->]. split; reflexivity.
Qed.

Lemma invoke_run {S A} (get : pipeline -> S) set c (m : method S A) p :
  invoke get set c m p = (set (m (get p)).1 (log_call c p), (m (get p)).2).
Proof. unfold invoke. destruct (m (get p)). reflexivity. Qed.

Lemma stats_add_returned key n p q (u : unit) :
  stats_add key n p = (q, Returned u) ->
  exists v, stats p !! key = Some v
            /\ q = set_stats (<[key := v + n]> (stats p)) p.
Proof.
  unfold stats_add. destruct (stats p !! key) as [v|]; intros [= <-].
  exists v. split; reflexivity.
Qed.

Lemma stats_add_run key n p v :
  stats p !! key = Some v ->
  stats_add key n p
  = (set_stats (<[key := v + n]> (stats p)) p, Returned tt).
Proof. intros Hv. unfold stats_add. rewrite Hv. reflexivity. Qed.

(** Take the next statement of a body that returned: a call on a
    collaborator, or an update of a counter. *)
Tactic Notation "call" hyp(H) "as" simple_intropattern(a) ident(Ha) :=
  let p1 := fresh "p" in
  apply bind_returned in H as (a & p1 & Ha & H);
  apply invoke_returned in Ha as [Ha ->].

Tactic Notation "add" hyp(H) "as" ident(v) ident(Hv) :=
  let u := fresh "u" in
  let p1 := fresh "p" in
  let Hm := fresh "Hm" in
  apply bind_returned in H as (u & p1 & Hm & H);
  apply stats_add_returned in Hm as (v & Hv & ->);
  simpl in Hv.

Ltac counters :=
  unfold counted, kept; simpl; simplify_map_eq; eauto.

(** C1: a call of [process_capture] that returns adds one to
    [frames_processed]; when the VAD classified the denoised frame as
    speech it adds one to [speech_frames], adds the length of the encoded
    payload to [bytes_encoded] and returns that payload; otherwise it adds
    one to [silence_frames], leaves [speech_frames] and [bytes_encoded] as
    they were and returns [None]. *)
Theorem process_capture_counts captured playback p q r :
  process_capture captured playback p = (q, Returned r) ->
  counted "frames_processed" 1 (stats p) (stats q)
  /\ kept "packets_sent" (stats p) (stats q)
  /\ kept "packets_received" (stats p) (stats q)
  /\ exists echo_cancelled denoised is_speech,
       returns (aec_process captured playback) (aec p) echo_cancelled
       /\ returns (denoiser_process echo_cancelled) (denoiser p) denoised
       /\ returns (vad_is_speech denoised) (vad p) is_speech
       /\ if is_speech then
            exists normalized encoded,
              returns (agc_process denoised) (agc p) normalized
              /\ returns (codec_encode normalized) (codec p) encoded
              /\ r = Some encoded
              /\ counted "speech_frames" 1 (stats p) (stats q)
              /\ counted "bytes_encoded" (Z.of_nat (length encoded))
                   (stats p) (stats q)
              /\ kept "silence_frames" (stats p) (stats q)
          else
            r = None
            /\ counted "silence_frames" 1 (stats p) (stats q)
            /\ kept "speech_frames" (stats p) (stats q)
            /\ kept "bytes_encoded" (stats p) (stats q).
Proof.
  intros Hrun. unfold process_capture in Hrun.
  cbv [mbind pipeline_bind mret pipeline_ret] in Hrun.
  call Hrun as ec Haec. call Hrun as dn Hdn. call Hrun as b Hvad.
  add Hrun as v Hv.
  destruct b.
  - call Hrun as norm Hagc. call Hrun as [] Hlm. call Hrun as enc Henc.
    add Hrun as v1 Hv1. add Hrun as v2 Hv2. injection Hrun as <- <-.
    simplify_map_eq.
    split; [counters|]. split; [counters|]. split; [counters|].
    exists ec, dn, true. do 3 (split; [assumption|]).
    exists norm, enc. do 3 (split; [assumption || reflexivity|]).
    split; [counters|]. split; counters.
  - call Hrun as [] Hcn. add Hrun as v1 Hv1. injection Hrun as <- <-.
    simplify_map_eq.
    split; [counters|]. split; [counters|]. split; [counters|].
    exists ec, dn, false. do 3 (split; [assumption|]).
    split; [reflexivity|]. split; [counters|]. split; counters.
Qed.

(** C5: in a call of [process_capture] that returns, the collaborators are
    called in this order: the echo canceller on (captured, playback), the
    denoiser on the echo-cancelled frame, the VAD on the denoised frame;
    then, when the VAD said speech, the AGC on the denoised frame, the level
    meter and the codec on the AGC's output, and no comfort-noise call;
    otherwise the comfort-noise analysis of the denoised frame and nothing
    else. *)
Theorem process_capture_stage_order captured playback p q r :
  process_capture captured playback p = (q, Returned r) ->
  exists echo_cancelled denoised is_speech branch,
    returns (aec_process captured playback) (aec p) echo_cancelled
    /\ returns (denoiser_process echo_cancelled) (denoiser p) denoised
    /\ returns (vad_is_speech denoised) (vad p) is_speech
    /\ calls q
       = calls p
         ++ [AecProcess captured playback; DenoiserProcess echo_cancelled;
             VadIsSpeech denoised]
         ++ branch
    /\ if is_speech then
         exists normalized,
           returns (agc_process denoised) (agc p) normalized
           /\ branch = [AgcProcess denoised; LevelMeterProcess normalized;
                        CodecEncode normalized]
       else branch = [ComfortNoiseAnalyze denoised].
Proof.
  intros Hrun. unfold process_capture in Hrun.
  cbv [mbind pipeline_bind mret pipeline_ret] in Hrun.
  call Hrun as ec Haec. call Hrun as dn Hdn. call Hrun as b Hvad.
  add Hrun as v Hv.
  exists ec, dn, b.
  destruct b.
  - call Hrun as norm Hagc. call Hrun as [] Hlm. call Hrun as enc Henc.
    add Hrun as v1 Hv1. add Hrun as v2 Hv2. injection Hrun as <- <-.
    exists [AgcProcess dn; LevelMeterProcess norm; CodecEncode norm].
    do 3 (split; [assumption|]). split.
    + simpl. rewrite <- !app_assoc. reflexivity.
    + exists norm. split; [assumption | reflexivity].
  - call Hrun as [] Hcn. add Hrun as v1 Hv1. injection Hrun as <- <-.
    exists [ComfortNoiseAnalyze dn].
    do 3 (split; [assumption|]). split.
    + simpl. rewrite <- !app_assoc. reflexivity.
    + reflexivity.
Qed.

(** C6: a call of [receive_packet] that returns has decoded the payload
    with the codec, passed the decoded frame with the packet's timestamp
    and sequence number to the jitter buffer's [put], and added one to
    [packets_received], whatever [put] did with the frame. *)
Theorem receive_packet_counts encoded timestamp sequence p q (u : unit) :
  receive_packet encoded timestamp sequence p = (q, Returned u) ->
  exists decoded,
    returns (codec_decode encoded) (codec p) decoded
    /\ returns (jitter_buffer_put decoded timestamp sequence)
         (jitter_buffer p) tt
    /\ jitter_buffer q
       = (jitter_buffer_put decoded timestamp sequence (jitter_buffer p)).1
    /\ calls q
       = calls p ++ [CodecDecode encoded;
                     JitterBufferPut decoded timestamp sequence]
    /\ counted "packets_received" 1 (stats p) (stats q)
    /\ forall key, key <> "packets_received" -> kept key (stats p) (stats q).
Proof.
  intros Hrun. unfold receive_packet in Hrun.
  cbv [mbind pipeline_bind mret pipeline_ret] in Hrun.
  call Hrun as decoded Hdec. call Hrun as [] Hput.
  apply stats_add_returned in Hrun as (v & Hv & ->). simpl in Hv.
  exists decoded. do 2 (split; [assumption|]).
  split; [reflexivity|]. split.
  - simpl. rewrite <- !app_assoc. reflexivity.
  - split; [counters|]. intros key Hkey. unfold kept. simpl.
    apply lookup_insert_ne. congruence.
Qed.


(** C8, as the code has it: [get_playback_audio] takes no argument; it
    calls the jitter buffer's [get] once, for [frame_size] samples, and
    returns what that call returns; it calls no other collaborator and
    changes nothing but the jitter buffer. *)
Theorem get_playback_audio_delegates p :
  (get_playback_audio p).2
  = (jitter_buffer_get (frame_size p) (jitter_buffer p)).2
  /\ jitter_buffer (get_playback_audio p).1
     = (jitter_buffer_get (frame_size p) (jitter_buffer p)).1
  /\ calls (get_playback_audio p).1
     = calls p ++ [JitterBufferGet (frame_size p)]
  /\ get_playback_audio p
     = (set_jitter_buffer
          (jitter_buffer_get (frame_size p) (jitter_buffer p)).1
          (log_call (JitterBufferGet (frame_size p)) p),
        (jitter_buffer_get (frame_size p) (jitter_buffer p)).2).
Proof.
  unfold get_playback_audio. rewrite invoke_run. simpl.
  repeat split; reflexivity.
Qed.

(** A call of [process_capture] that returns [None] took the silence
    branch: it called neither the AGC, the level meter nor the codec. *)
Lemma silence_call_frame captured playback p q :
  process_capture captured playback p = (q, Returned None) ->
  agc q = agc p /\ level_meter q = level_meter p /\ codec q = codec p
  /\ exists made,
       calls q = calls p ++ made
       /\ Forall (fun c => speech_branch_call c = false) made.
Proof.
  intros Hrun. unfold process_capture in Hrun.
  cbv [mbind pipeline_bind mret pipeline_ret] in Hrun.
  call Hrun as ec Haec. call Hrun as dn Hdn. call Hrun as b Hvad.
  add Hrun as v Hv.
  destruct b.
  - call Hrun as norm Hagc. call Hrun as [] Hlm. call Hrun as enc Henc.
    add Hrun as v1 Hv1. add Hrun as v2 Hv2. discriminate Hrun.
  - call Hrun as [] Hcn. add Hrun as v1 Hv1. injection Hrun as <-.
    do 3 (split; [reflexivity|]).
    exists [AecProcess captured playback; DenoiserProcess ec; VadIsSpeech dn;
            ComfortNoiseAnalyze dn].
    split.
    + simpl. rewrite <- !app_assoc. reflexivity.
    + repeat constructor.
Qed.

(** C9: over any run of [process_capture] calls that all took the silence
    branch (each returned [None]), the AGC, the level meter and the codec
    are never called and keep their state; so [get_level_db] answers after
    the run what it answered before it, the level left by the last speech
    frame. *)
Theorem silence_run_keeps_level inputs p q rs :
  process_all inputs p = (q, Returned rs) ->
  Forall (fun r => r = None) rs ->
  agc q = agc p /\ level_meter q = level_meter p /\ codec q = codec p
  /\ (exists made,
        calls q = calls p ++ made
        /\ Forall (fun c => speech_branch_call c = false) made)
  /\ (get_level_db q).2 = (get_level_db p).2.
Proof.
  revert p rs.
  induction inputs as [|[captured playback] rest IH]; intros p rs Hrun Hall.
  - simpl in Hrun. injection Hrun as <- <-.
    do 3 (split; [reflexivity|]). split; [|reflexivity].
    exists []. split; [symmetry; apply app_nil_r | constructor].
  - simpl in Hrun.
    apply bind_returned in Hrun as (r & p1 & Hfirst & Hrun).
    apply bind_returned in Hrun as (rs' & p2 & Hrest & Hrun).
    injection Hrun as <- <-.
    apply Forall_cons in Hall as [-> Hall].
    apply silence_call_frame in Hfirst as (Hg1 & Hl1 & Hc1 & m1 & Hm1 & Hq1).
    destruct (IH p1 rs' Hrest Hall) as (Hg & Hl & Hc & [m2 [Hm2 Hq2]] & Hdb).
    split; [congruence|]. split; [congruence|]. split; [congruence|].
    split.
    + exists (m1 ++ m2). split.
      * rewrite Hm2, Hm1, app_assoc. reflexivity.
      * apply Forall_app. split; assumption.
    + rewrite Hdb. unfold get_level_db. rewrite !invoke_run. simpl.
      rewrite Hl1. reflexivity.
Qed.

Lemma invoke_step {S A} (get : pipeline -> S) set c (m : method S A) p a :
  returns m (get p) a ->
  invoke get set c m p = (set (m (get p)).1 (log_call c p), Returned a).
Proof. intros Hm. rewrite invoke_run. unfold returns in Hm. congruence. Qed.

Lemma invoke_raise {S A} (get : pipeline -> S) set c (m : method S A) p e :
  raises m (get p) e ->
  invoke get set c m p = (set (m (get p)).1 (log_call c p), Raised e).
Proof. intros Hm. rewrite invoke_run. unfold raises in Hm. congruence. Qed.

(** C10: when the first three stages return, the VAD says speech, and then
    the AGC, the level meter or the codec raises, [process_capture] raises
    that same exception (so no payload is returned) and leaves the
    statistics with [frames_processed] one higher and [speech_frames],
    [bytes_encoded] and every other counter as they were. *)
Theorem process_capture_fault captured playback p echo_cancelled denoised e :
  is_Some (stats p !! "frames_processed") ->
  returns (aec_process captured playback) (aec p) echo_cancelled ->
  returns (denoiser_process echo_cancelled) (denoiser p) denoised ->
  returns (vad_is_speech denoised) (vad p) true ->
  speech_branch_fault denoised (agc p) (level_meter p) (codec p) e ->
  exists q,
    process_capture captured playback p = (q, Raised e)
    /\ counted "frames_processed" 1 (stats p) (stats q)
    /\ kept "speech_frames" (stats p) (stats q)
    /\ kept "bytes_encoded" (stats p) (stats q)
    /\ forall key, key <> "frames_processed" -> kept key (stats p) (stats q).
Proof.
  intros [v Hv] Haec Hdn Hvad Hfault.
  unfold process_capture. cbv [mbind pipeline_bind mret pipeline_ret].
  erewrite bind_step; [|apply invoke_step; exact Haec].
  erewrite bind_step; [|apply invoke_step; exact Hdn].
  erewrite bind_step; [|apply invoke_step; exact Hvad].
  erewrite bind_step; [|apply stats_add_run; exact Hv].
  assert (Hstats : forall q : pipeline,
             stats q = <["frames_processed" := v + 1]> (stats p) ->
             counted "frames_processed" 1 (stats p) (stats q)
             /\ kept "speech_frames" (stats p) (stats q)
             /\ kept "bytes_encoded" (stats p) (stats q)
             /\ forall key, key <> "frames_processed" ->
                            kept key (stats p) (stats q)).
  { intros q ->. split; [counters|]. split; [counters|]. split; [counters|].
    intros key Hkey. unfold kept. apply lookup_insert_ne. congruence. }
  destruct Hfault as [Hagc | [(norm & Hagc & Hlm) | (norm & Hagc & Hlm & Henc)]].
  - eexists. split.
    + apply bind_raised. apply invoke_raise. exact Hagc.
    + apply Hstats. reflexivity.
  - eexists. split.
    + erewrite bind_step; [|apply invoke_step; exact Hagc].
      apply bind_raised. apply invoke_raise. exact Hlm.
    + apply Hstats. reflexivity.
  - eexists. split.
    + erewrite bind_step; [|apply invoke_step; exact Hagc].
      erewrite bind_step; [|apply invoke_step; exact Hlm].
      apply bind_raised. apply invoke_raise. exact Henc.
    + apply Hstats. reflexivity.
Qed.

End PipelineFacts.

(** * Properties of the jitter buffer *)

Section JitterBufferFacts.

Import JitterBufferSpec.

Context {E : Type} `{!DelayEstimator E}.

Implicit Types b : t E.

Lemma put_cfg f ts sq b : cfg (put f ts sq b) = cfg b.
Proof.
  unfold put. destruct (slots b !! ts); [reflexivity|].
  destruct (ts <? cursor b - delay_ticks b); [reflexivity|].
  destruct (estimator_observe ts sq (estimator b)). reflexivity.
Qed.

Lemma put_cursor f ts sq b : cursor (put f ts sq b) = cursor b.
Proof.
  unfold put. destruct (slots b !! ts); [reflexivity|].
  destruct (ts <? cursor b - delay_ticks b); [reflexivity|].
  destruct (estimator_observe ts sq (estimator b)). reflexivity.
Qed.

Lemma get_chunk_cfg b : cfg (get_chunk b).1 = cfg b.
Proof. unfold get_chunk. destruct (slots b !! cursor b); reflexivity. Qed.

Lemma get_chunk_frame_samples b :
  frame_samples (get_chunk b).1 = frame_samples b.
Proof. unfold frame_samples. rewrite get_chunk_cfg. reflexivity. Qed.

Lemma get_chunk_cursor b :
  cursor (get_chunk b).1 = cursor b + frame_samples b.
Proof. unfold get_chunk. destruct (slots b !! cursor b); reflexivity. Qed.

Lemma get_chunks_S k b :
  get_chunks (S k) b
  = ((get_chunks k (get_chunk b).1).1,
     (get_chunk b).2 ++ (get_chunks k (get_chunk b).1).2).
Proof.
  simpl. destruct (get_chunk b) as [b1 chunk]. simpl.
  destruct (get_chunks k b1). reflexivity.
Qed.

Lemma get_chunks_frame_samples k b :
  frame_samples (get_chunks k b).1 = frame_samples b.
Proof.
  revert b. induction k as [|k IH]; intros b; [reflexivity|].
  rewrite get_chunks_S. simpl. rewrite IH. apply get_chunk_frame_samples.
Qed.

Lemma get_chunks_cursor k b :
  cursor (get_chunks k b).1 = cursor b + Z.of_nat k * frame_samples b.
Proof.
  revert b. induction k as [|k IH]; intros b.
  - simpl. lia.
  - rewrite get_chunks_S. simpl. rewrite IH, get_chunk_cursor,
      get_chunk_frame_samples. lia.
Qed.

Lemma get_chunk_sized b :
  0 <= frame_samples b -> frames_sized b ->
  Z.of_nat (length (get_chunk b).2) = frame_samples b
  /\ frames_sized (get_chunk b).1.
Proof.
  intros Hfs Hsized. unfold get_chunk.
  destruct (slots b !! cursor b) as [f|] eqn:Hslot; simpl.
  - split; [eapply Hsized; eassumption|].
    intros ts g Hg. simpl in Hg.
    apply lookup_delete_Some in Hg as [_ Hg]. eapply Hsized; eassumption.
  - split; [rewrite length_replicate; lia | exact Hsized].
Qed.

Lemma get_chunks_sized k b :
  0 <= frame_samples b -> frames_sized b ->
  Z.of_nat (length (get_chunks k b).2) = Z.of_nat k * frame_samples b
  /\ frames_sized (get_chunks k b).1.
Proof.
  revert b. induction k as [|k IH]; intros b Hfs Hsized.
  - simpl. split; [lia | exact Hsized].
  - rewrite get_chunks_S. simpl.
    destruct (get_chunk_sized b Hfs Hsized) as [Hlen Hs1].
    destruct (IH (get_chunk b).1) as [Hrest Hs2];
      [rewrite get_chunk_frame_samples; exact Hfs | exact Hs1 |].
    rewrite get_chunk_frame_samples in Hrest.
    split; [rewrite length_app; lia | exact Hs2].
Qed.

Lemma get_chunks_starved k b :
  slots b = ∅ ->
  (get_chunks k b).2 = replicate (k * Z.to_nat (frame_samples b)) 0
  /\ underrun_count (get_chunks k b).1 = underrun_count b + Z.of_nat k
  /\ slots (get_chunks k b).1 = ∅.
Proof.
  revert b. induction k as [|k IH]; intros b Hempty.
  - simpl. split; [reflexivity|]. split; [lia | exact Hempty].
  - rewrite get_chunks_S. simpl.
    assert (Hchunk : get_chunk b
                     = (mkBuffer (cfg b) (slots b)
                          (cursor b + frame_samples b) (target_delay_ms b)
                          (estimator b) (late_count b) (underrun_count b + 1)
                          (duplicate_count b),
                        replicate (Z.to_nat (frame_samples b)) 0)).
    { unfold get_chunk. rewrite Hempty, lookup_empty. reflexivity. }
    rewrite Hchunk. simpl.
    destruct (IH (mkBuffer (cfg b) (slots b) (cursor b + frame_samples b)
                    (target_delay_ms b) (estimator b) (late_count b)
                    (underrun_count b + 1) (duplicate_count b)) Hempty)
      as (Hout & Hunder & Hslots).
    rewrite Hout, Hunder, Hslots. simpl.
    split; [|split; [lia | reflexivity]].
    unfold frame_samples at 1. simpl. fold (frame_samples b).
    rewrite <- replicate_add. reflexivity.
Qed.

Lemma get_run n b :
  0 < n -> 0 < frame_samples b -> n mod frame_samples b = 0 ->
  get n b
  = ((get_chunks (Z.to_nat (n / frame_samples b)) b).1,
     Returned (get_chunks (Z.to_nat (n / frame_samples b)) b).2).
Proof.
  intros Hn Hfs Hmod. unfold get.
  apply Z.ltb_lt in Hn as ->. apply Z.ltb_lt in Hfs as ->.
  apply Z.eqb_eq in Hmod as ->. simpl.
  destruct (get_chunks _ b). reflexivity.
Qed.

Lemma step_cursor b o : cursor b <= cursor (step b o).
Proof.
  destruct o as [f ts sq|n]; simpl.
  - rewrite put_cursor. lia.
  - unfold get.
    destruct (0 <? n) eqn:Hn; simpl; [|lia].
    destruct (0 <? frame_samples b) eqn:Hfs; simpl; [|lia].
    destruct (n mod frame_samples b =? 0); simpl; [|lia].
    destruct (get_chunks _ b) as [b1 out] eqn:Hrun. simpl.
    change b1 with (b1, out).1. rewrite <- Hrun, get_chunks_cursor.
    apply Z.ltb_lt in Hfs. nia.
Qed.

Lemma run_cursor ops b : cursor b <= cursor (run ops b).
Proof.
  revert b. induction ops as [|o ops IH]; intros b; simpl; [lia|].
  etransitivity; [apply step_cursor | apply IH].
Qed.

Lemma fresh_sized (c : config) : frames_sized (fresh (E := E) c).
Proof. intros ts f Hf. simpl in Hf. rewrite lookup_empty in Hf. discriminate. Qed.

(** Storing frames of the native size keeps the Frame invariant. *)
Lemma put_sized f ts sq b :
  Z.of_nat (length f) = frame_samples b -> frames_sized b ->
  frames_sized (put f ts sq b).
Proof.
  intros Hlen Hsized. unfold put.
  destruct (slots b !! ts) eqn:Hslot; [exact Hsized|].
  destruct (ts <? cursor b - delay_ticks b); [exact Hsized|].
  destruct (estimator_observe ts sq (estimator b)) as [e1 proposal].
  intros k g Hg. unfold frame_samples. simpl in *. fold (frame_samples b).
  apply lookup_insert_Some in Hg as [[_ <-] | [_ Hg]]; [exact Hlen|].
  destruct (decide (size (slots b) < cfg_capacity (cfg b))%nat).
  - eapply Hsized; eassumption.
  - unfold evict_oldest in Hg. destruct (oldest (slots b)).
    + apply lookup_delete_Some in Hg as [_ Hg]. eapply Hsized; eassumption.
    + eapply Hsized; eassumption.
Qed.

(** C7: a [put] at a timestamp that already has a slot leaves the stored
    slots as they are, so their number does not grow, and adds exactly one
    to the duplicate counter; nothing else changes. *)
Theorem put_duplicate f timestamp sequence b :
  is_Some (slots b !! timestamp) ->
  slots (put f timestamp sequence b) = slots b
  /\ size (slots (put f timestamp sequence b)) = size (slots b)
  /\ duplicate_count (put f timestamp sequence b) = duplicate_count b + 1
  /\ late_count (put f timestamp sequence b) = late_count b
  /\ underrun_count (put f timestamp sequence b) = underrun_count b
  /\ cursor (put f timestamp sequence b) = cursor b
  /\ target_delay_ms (put f timestamp sequence b) = target_delay_ms b.
Proof.
  intros [g Hslot]. unfold put. rewrite Hslot. simpl.
  repeat split; reflexivity.
Qed.

(** C3: for [n] a positive multiple of the frame size, [get n] returns
    exactly [n] samples and moves the cursor forward by [n]; on a buffer
    with no slot at all the samples are all silence and every chunk counts
    as an underrun; and whatever [put]s and [get]s follow, the cursor never
    comes back below the end of the range this call played, so two [get]s
    never play overlapping ranges of the sample clock. *)
Theorem get_exact n b :
  0 < n -> 0 < frame_samples b -> n mod frame_samples b = 0 ->
  frames_sized b ->
  exists b1 out,
    get n b = (b1, Returned out)
    /\ Z.of_nat (length out) = n
    /\ cursor b1 = cursor b + n
    /\ cursor b < cursor b1
    /\ frames_sized b1
    /\ (slots b = ∅ ->
        out = replicate (Z.to_nat n) 0
        /\ underrun_count b1 = underrun_count b + n / frame_samples b)
    /\ forall ops, cursor b + n <= cursor (run ops b1).
Proof.
  intros Hn Hfs Hmod Hsized.
  pose proof (Z.div_exact n (frame_samples b) ltac:(lia)) as [_ Hexact].
  specialize (Hexact Hmod).
  assert (Hk : Z.of_nat (Z.to_nat (n / frame_samples b)) * frame_samples b = n).
  { rewrite Z2Nat.id; [lia|]. apply Z.div_pos; lia. }
  eexists _, _. split; [apply get_run; assumption|].
  destruct (get_chunks_sized (Z.to_nat (n / frame_samples b)) b
              ltac:(lia) Hsized) as [Hlen Hs1].
  assert (Hcur : cursor (get_chunks (Z.to_nat (n / frame_samples b)) b).1
                 = cursor b + n).
  { rewrite get_chunks_cursor, Hk. reflexivity. }
  split; [lia|]. split; [exact Hcur|]. split; [lia|].
  split; [exact Hs1|]. split.
  - intros Hempty.
    destruct (get_chunks_starved (Z.to_nat (n / frame_samples b)) b Hempty)
      as (Hout & Hunder & _).
    split.
    + rewrite Hout. f_equal. rewrite <- Z2Nat.inj_mul; [|apply Z.div_pos; lia|lia].
      f_equal. lia.
    + rewrite Hunder, Z2Nat.id; [reflexivity|]. apply Z.div_pos; lia.
  - intros ops. rewrite <- Hcur. apply run_cursor.
Qed.

(** *** Arrivals in any order *)

Lemma valid_config_inv (c : config) :
  valid_config c = true ->
  0 < cfg_sample_rate c
  /\ 0 < cfg_sample_rate c * cfg_frame_size_ms c / 1000
  /\ 0 <= cfg_min_delay_ms c <= cfg_max_delay_ms c.
Proof.
  unfold valid_config.
  rewrite !andb_true_iff, !Z.ltb_lt, !Z.leb_le. lia.
Qed.

Lemma wf_frame_samples b : wf b -> 0 < frame_samples b.
Proof. intros [Hc _]. apply valid_config_inv in Hc. apply Hc. Qed.

Lemma wf_delay_ticks b : wf b -> 0 <= delay_ticks b.
Proof.
  intros [Hc Hd]. apply valid_config_inv in Hc as (Hrate & _ & Hmin).
  unfold delay_ticks. apply Z.div_pos; nia.
Qed.

Lemma clamp_delay_bounds (c : config) d :
  cfg_min_delay_ms c <= cfg_max_delay_ms c ->
  cfg_min_delay_ms c <= clamp_delay c d <= cfg_max_delay_ms c.
Proof. unfold clamp_delay. lia. Qed.

(** Construction yields a well-formed, empty buffer; [put] keeps it
    well-formed on every path. *)
Lemma create_wf (c : config) b :
  create c = Returned b -> wf b /\ frames_sized b /\ slots b = ∅.
Proof.
  unfold create. destruct (valid_config c) eqn:Hc; [|discriminate].
  intros [= <-]. split; [|split; [apply fresh_sized | reflexivity]].
  split; [exact Hc|]. simpl. apply valid_config_inv in Hc. lia.
Qed.

Lemma put_wf f ts sq b : wf b -> wf (put f ts sq b).
Proof.
  intros [Hc Hd]. unfold put.
  destruct (slots b !! ts); [split; assumption|].
  destruct (ts <? cursor b - delay_ticks b); [split; assumption|].
  destruct (estimator_observe ts sq (estimator b)) as [e1 proposal].
  split; [exact Hc|]. simpl.
  apply clamp_delay_bounds. apply valid_config_inv in Hc. lia.
Qed.

(** A frame that is neither a duplicate nor behind the cursor is stored
    when there is room for it. *)
Lemma put_accept f ts sq b :
  wf b -> slots b !! ts = None -> cursor b <= ts ->
  (size (slots b) < cfg_capacity (cfg b))%nat ->
  slots (put f ts sq b) = <[ts := f]> (slots b)
  /\ wf (put f ts sq b)
  /\ late_count (put f ts sq b) = late_count b
  /\ duplicate_count (put f ts sq b) = duplicate_count b
  /\ underrun_count (put f ts sq b) = underrun_count b.
Proof.
  intros Hwf Hfree Hts Hroom.
  pose proof (wf_delay_ticks b Hwf) as Hdelay.
  unfold put. rewrite Hfree.
  destruct (ts <? cursor b - delay_ticks b) eqn:Hlate;
    [apply Z.ltb_lt in Hlate; lia|].
  destruct (decide (size (slots b) < cfg_capacity (cfg b))%nat);
    [|contradiction].
  destruct (estimator_observe ts sq (estimator b)) as [e1 proposal]. simpl.
  split; [reflexivity|]. split; [|repeat split; reflexivity].
  destruct Hwf as [Hc Hd]. split; [exact Hc|]. simpl.
  apply clamp_delay_bounds. apply valid_config_inv in Hc. lia.
Qed.

Lemma put_all_cons pk arrivals b :
  put_all (pk :: arrivals) b = put_all arrivals (put pk.2 pk.1.1 pk.1.2 b).
Proof. destruct pk as [[ts sq] f]. reflexivity. Qed.

Lemma put_all_accept arrivals b :
  wf b ->
  NoDup (timed <$> arrivals).*1 ->
  (forall ts, ts ∈ (timed <$> arrivals).*1 ->
              cursor b <= ts /\ slots b !! ts = None) ->
  (size (slots b) + length arrivals <= cfg_capacity (cfg b))%nat ->
  slots (put_all arrivals b) = list_to_map (timed <$> arrivals) ∪ slots b
  /\ wf (put_all arrivals b)
  /\ cfg (put_all arrivals b) = cfg b
  /\ cursor (put_all arrivals b) = cursor b
  /\ late_count (put_all arrivals b) = late_count b
  /\ duplicate_count (put_all arrivals b) = duplicate_count b
  /\ underrun_count (put_all arrivals b) = underrun_count b.
Proof.
  revert b.
  induction arrivals as [|pk arrivals IH]; intros b Hwf Hnodup Hin Hroom.
  - simpl. rewrite (left_id_L ∅ (∪)). repeat split; try reflexivity;
      apply Hwf.
  - rewrite put_all_cons. destruct pk as [[ts sq] f]. simpl in *.
    apply NoDup_cons in Hnodup as [Hfresh Hnodup].
    destruct (Hin ts) as [Hts Hfree]; [left|].
    destruct (put_accept f ts sq b Hwf Hfree Hts ltac:(lia))
      as (Hslots & Hwf1 & Hlate & Hdup & Hunder).
    destruct (IH (put f ts sq b)) as (Hs & Hw & Hc & Hcur & Hl & Hd & Hu).
    + exact Hwf1.
    + exact Hnodup.
    + intros ts' Hts'. rewrite put_cursor, Hslots.
      destruct (Hin ts') as [Hge Hnone]; [right; exact Hts'|].
      split; [exact Hge|]. rewrite lookup_insert_ne; [exact Hnone|].
      intros ->. contradiction.
    + rewrite put_cfg, Hslots, map_size_insert_None by exact Hfree. lia.
    + rewrite Hs, Hslots, Hc, Hcur, Hl, Hd, Hu, put_cfg, put_cursor.
      split; [|split; [exact Hw | repeat split; assumption]].
      rewrite <- insert_union_r
        by (apply not_elem_of_list_to_map_1; exact Hfresh).
      rewrite insert_union_l. reflexivity.
Qed.

Lemma schedule_keys start step (fs : list frame) ts :
  ts ∈ (schedule start step fs).*1 <->
  exists i, (i < length fs)%nat /\ ts = start + Z.of_nat i * step.
Proof.
  unfold schedule. rewrite list_elem_of_fmap. split.
  - intros ([ts' f] & -> & Hin).
    apply elem_of_lookup_imap in Hin as (i & g & [= -> ->] & Hi).
    exists i. split; [eapply lookup_lt_Some; eassumption | reflexivity].
  - intros (i & Hi & ->).
    destruct (lookup_lt_is_Some_2 fs i Hi) as [f Hf].
    exists (start + Z.of_nat i * step, f). split; [reflexivity|].
    apply elem_of_lookup_imap. exists i, f. split; [reflexivity | exact Hf].
Qed.

Lemma schedule_NoDup start step (fs : list frame) :
  0 < step -> NoDup (schedule start step fs).*1.
Proof.
  intros Hstep. apply NoDup_alt. intros i j ts Hi Hj.
  unfold schedule in *.
  rewrite list_lookup_fmap, list_lookup_imap in Hi, Hj.
  destruct (fs !! i); [|discriminate]. destruct (fs !! j); [|discriminate].
  simpl in *. injection Hi as <-. injection Hj as Heq. nia.
Qed.

Lemma schedule_lookup start step (fs : list frame) i f :
  0 < step -> fs !! i = Some f ->
  (list_to_map (schedule start step fs) : gmap Z frame)
    !! (start + Z.of_nat i * step) = Some f.
Proof.
  intros Hstep Hf. apply elem_of_list_to_map.
  - apply schedule_NoDup. exact Hstep.
  - apply elem_of_lookup_imap. exists i, f. split; [reflexivity | exact Hf].
Qed.

Lemma get_chunk_counters b :
  late_count (get_chunk b).1 = late_count b
  /\ duplicate_count (get_chunk b).1 = duplicate_count b.
Proof.
  unfold get_chunk. destruct (slots b !! cursor b); split; reflexivity.
Qed.

Lemma get_chunks_counters k b :
  late_count (get_chunks k b).1 = late_count b
  /\ duplicate_count (get_chunks k b).1 = duplicate_count b.
Proof.
  revert b. induction k as [|k IH]; intros b; [split; reflexivity|].
  rewrite get_chunks_S. simpl.
  destruct (IH (get_chunk b).1) as [-> ->]. apply get_chunk_counters.
Qed.

Lemma get_chunk_shrinks b ts :
  slots b !! ts = None -> slots (get_chunk b).1 !! ts = None.
Proof.
  intros Hnone. unfold get_chunk.
  destruct (slots b !! cursor b); simpl; [|exact Hnone].
  apply lookup_delete_None. right. exact Hnone.
Qed.

Lemma get_chunks_shrinks k b ts :
  slots b !! ts = None -> slots (get_chunks k b).1 !! ts = None.
Proof.
  revert b. induction k as [|k IH]; intros b Hnone; [exact Hnone|].
  rewrite get_chunks_S. simpl. apply IH, get_chunk_shrinks, Hnone.
Qed.

(** When the slots hold the frames [fs] at the cursor and the frame-size
    steps after it, [get_chunks] plays them in that order, consumes each,
    and substitutes no silence. *)
Lemma get_chunks_scheduled (fs : list frame) b :
  0 < frame_samples b ->
  (forall i f, fs !! i = Some f ->
               slots b !! (cursor b + Z.of_nat i * frame_samples b) = Some f) ->
  (get_chunks (length fs) b).2 = concat fs
  /\ underrun_count (get_chunks (length fs) b).1 = underrun_count b
  /\ forall i, (i < length fs)%nat ->
       slots (get_chunks (length fs) b).1
         !! (cursor b + Z.of_nat i * frame_samples b) = None.
Proof.
  revert b. induction fs as [|f fs IH]; intros b Hstep Hheld.
  - simpl. split; [reflexivity|]. split; [reflexivity|]. intros i Hi. lia.
  - assert (Hhead : slots b !! cursor b = Some f).
    { specialize (Hheld 0%nat f eq_refl).
      replace (cursor b + Z.of_nat 0 * frame_samples b) with (cursor b)
        in Hheld by lia.
      exact Hheld. }
    assert (Hchunk : get_chunk b
                     = (mkBuffer (cfg b) (delete (cursor b) (slots b))
                          (cursor b + frame_samples b) (target_delay_ms b)
                          (estimator b) (late_count b) (underrun_count b)
                          (duplicate_count b), f)).
    { unfold get_chunk. rewrite Hhead. reflexivity. }
    simpl length. rewrite get_chunks_S, Hchunk. simpl.
    set (b1 := mkBuffer (cfg b) (delete (cursor b) (slots b))
                 (cursor b + frame_samples b) (target_delay_ms b)
                 (estimator b) (late_count b) (underrun_count b)
                 (duplicate_count b)).
    destruct (IH b1) as (Hout & Hunder & Hgone).
    + exact Hstep.
    + intros i g Hg. change (frame_samples b1) with (frame_samples b).
      unfold b1. simpl.
      rewrite lookup_delete_ne by nia.
      replace (cursor b + frame_samples b + Z.of_nat i * frame_samples b)
        with (cursor b + Z.of_nat (S i) * frame_samples b) by lia.
      apply Hheld. exact Hg.
    + split; [rewrite Hout; reflexivity|]. split; [exact Hunder|].
      intros [|i] Hi.
      * apply get_chunks_shrinks. unfold b1. simpl.
        replace (cursor b + Z.of_nat 0 * frame_samples b) with (cursor b)
          by lia.
        apply lookup_delete_eq.
      * specialize (Hgone i ltac:(lia)).
        change (frame_samples b1) with (frame_samples b) in Hgone.
        change (cursor b1) with (cursor b + frame_samples b) in Hgone.
        replace (cursor b + Z.of_nat (S i) * frame_samples b)
          with (cursor b + frame_samples b + Z.of_nat i * frame_samples b)
          by lia.
        exact Hgone.
Qed.

(** The case without gaps: let the frames [fs] be due at the cursor and at each frame-size
    step after it, and let them arrive in any order, with any sequence
    numbers, in a buffer that has room for them and no slot at their
    timestamps.  Then every one of them is accepted, and the [get] for
    their total length returns them joined in ascending-timestamp order,
    with no silence substituted, and consumes each of them. *)
Lemma reordered_arrivals_play_in_order (fs : list frame) arrivals b :
  wf b ->
  fs <> [] ->
  timed <$> arrivals ≡ₚ schedule (cursor b) (frame_samples b) fs ->
  (forall ts, ts ∈ (schedule (cursor b) (frame_samples b) fs).*1 ->
              slots b !! ts = None) ->
  (size (slots b) + length fs <= cfg_capacity (cfg b))%nat ->
  exists b1,
    get (Z.of_nat (length fs) * frame_samples b) (put_all arrivals b)
    = (b1, Returned (concat fs))
    /\ underrun_count b1 = underrun_count b
    /\ late_count b1 = late_count b
    /\ duplicate_count b1 = duplicate_count b
    /\ cursor b1 = cursor b + Z.of_nat (length fs) * frame_samples b
    /\ forall ts, ts ∈ (schedule (cursor b) (frame_samples b) fs).*1 ->
                  slots b1 !! ts = None.
Proof.
  intros Hwf Hne Hperm Hfree Hroom.
  pose proof (wf_frame_samples b Hwf) as Hstep.
  pose proof (schedule_NoDup (cursor b) (frame_samples b) fs Hstep) as Hnodup.
  assert (Hkeys : (timed <$> arrivals).*1
                  ≡ₚ (schedule (cursor b) (frame_samples b) fs).*1)
    by (rewrite Hperm; reflexivity).
  assert (Hlen : length arrivals = length fs).
  { rewrite <- (length_fmap timed arrivals), Hperm.
    unfold schedule. apply length_imap. }
  destruct (put_all_accept arrivals b Hwf) as (Hs & Hw & Hc & Hcur & Hl & Hd & Hu).
  { rewrite Hkeys. exact Hnodup. }
  { intros ts Hts. rewrite Hkeys in Hts. split; [|apply Hfree, Hts].
    apply schedule_keys in Hts as (i & _ & ->). nia. }
  { lia. }
  set (b0 := put_all arrivals b) in *.
  assert (Hfs0 : frame_samples b0 = frame_samples b)
    by (unfold frame_samples; rewrite Hc; reflexivity).
  assert (Hpos : (0 < length fs)%nat) by (destruct fs; [congruence | simpl; lia]).
  rewrite get_run; rewrite ?Hfs0; [|nia|lia|apply Z.mod_mul; lia].
  rewrite Z.div_mul, Nat2Z.id by lia.
  destruct (get_chunks_scheduled fs b0) as (Hout & Hunder & Hgone).
  { lia. }
  { intros i f Hf. rewrite Hs, Hcur, Hfs0.
    apply lookup_union_Some_l.
    rewrite (list_to_map_proper _ _ ltac:(rewrite Hkeys; exact Hnodup) Hperm).
    apply schedule_lookup; assumption. }
  destruct (get_chunks_counters (length fs) b0) as [Hl1 Hd1].
  eexists. split; [rewrite Hout; reflexivity|].
  split; [congruence|]. split; [congruence|]. split; [congruence|].
  split; [rewrite get_chunks_cursor, Hcur, Hfs0; reflexivity|].
  intros ts Hts. apply schedule_keys in Hts as (i & Hi & ->).
  rewrite <- Hcur, <- Hfs0. apply Hgone, Hi.
Qed.

(** *** Frames on the grid, and frames behind the cursor *)

(** [get_chunks] plays the grid positions from the cursor on, in order:
    the pending frame of each position, or silence; it consumes the frames
    it plays and leaves every other slot. *)
Lemma get_chunks_playout (m : nat) b :
  0 < frame_samples b ->
  (get_chunks m b).2 = playout (slots b) (cursor b) (frame_samples b) m
  /\ (forall k, (k < m)%nat ->
        slots (get_chunks m b).1
          !! (cursor b + Z.of_nat k * frame_samples b) = None)
  /\ (forall ts, (forall k, (k < m)%nat ->
                    ts <> cursor b + Z.of_nat k * frame_samples b) ->
        slots (get_chunks m b).1 !! ts = slots b !! ts).
Proof.
  revert b. induction m as [|m IH]; intros b Hstep.
  - simpl. split; [reflexivity|]. split; [intros k Hk; lia | reflexivity].
  - rewrite get_chunks_S. cbn [fst snd].
    assert (Hchunk : (get_chunk b).2
                     = default (replicate (Z.to_nat (frame_samples b)) 0)
                         (slots b !! cursor b)
                     /\ forall ts, ts <> cursor b ->
                          slots (get_chunk b).1 !! ts = slots b !! ts).
    { unfold get_chunk. destruct (slots b !! cursor b); simpl.
      - split; [reflexivity|]. intros ts Hts.
        apply lookup_delete_ne. congruence.
      - split; reflexivity. }
    destruct Hchunk as [Hout Hother].
    assert (Hhead : slots (get_chunk b).1 !! cursor b = None).
    { unfold get_chunk. destruct (slots b !! cursor b) eqn:Hslot; simpl.
      - apply lookup_delete_eq.
      - exact Hslot. }
    destruct (IH (get_chunk b).1) as (Hrest & Hgone & Hkept);
      [rewrite get_chunk_frame_samples; exact Hstep|].
    rewrite get_chunk_frame_samples, get_chunk_cursor in Hrest, Hgone, Hkept.
    split; [|split].
    + rewrite Hout, Hrest. unfold playout.
      cbn [seq fmap list_fmap concat].
      f_equal; [f_equal; f_equal; lia|].
      rewrite <- fmap_S_seq, <- list_fmap_compose. f_equal.
      apply list_fmap_ext. intros _ k _. simpl.
      rewrite Hother by nia. f_equal. f_equal. lia.
    + intros [|k] Hk.
      * rewrite Hkept; [|intros j Hj; nia].
        replace (cursor b + Z.of_nat 0 * frame_samples b) with (cursor b)
          by lia.
        exact Hhead.
      * specialize (Hgone k ltac:(lia)).
        replace (cursor b + Z.of_nat (S k) * frame_samples b)
          with (cursor b + frame_samples b + Z.of_nat k * frame_samples b)
          by lia.
        exact Hgone.
    + intros ts Hts. rewrite Hkept.
      * apply Hother. specialize (Hts 0%nat ltac:(lia)). lia.
      * intros k Hk. specialize (Hts (S k) ltac:(lia)). lia.
Qed.

(** C2, as the buffer of section 4.1 has it: let frames be due at
    timestamps on the frame grid, at or after the playout cursor, no two at
    one timestamp, and let them arrive in any order, with any sequence
    numbers, in a buffer that has room for them and no slot at their
    timestamps.  Then all are accepted, whatever the target delay; the [get]
    of [m] frames returns the grid positions in ascending-timestamp order,
    each frame at the position of its timestamp and silence where no frame
    is due; a frame that was played is consumed and one beyond the played
    range is still pending: every frame is returned exactly once. *)
Theorem arrivals_play_in_timestamp_order (due : list (Z * frame)) arrivals b
    (m : nat) :
  wf b ->
  (0 < m)%nat ->
  timed <$> arrivals ≡ₚ due ->
  NoDup due.*1 ->
  (forall ts, ts ∈ due.*1 ->
     slots b !! ts = None
     /\ exists k : nat, ts = cursor b + Z.of_nat k * frame_samples b) ->
  (size (slots b) + length due <= cfg_capacity (cfg b))%nat ->
  exists b1,
    get (Z.of_nat m * frame_samples b) (put_all arrivals b)
    = (b1, Returned (playout (list_to_map due ∪ slots b) (cursor b)
                       (frame_samples b) m))
    /\ cursor b1 = cursor b + Z.of_nat m * frame_samples b
    /\ late_count b1 = late_count b
    /\ duplicate_count b1 = duplicate_count b
    /\ forall ts f, (ts, f) ∈ due ->
         (list_to_map due ∪ slots b) !! ts = Some f
         /\ (ts < cursor b1 -> slots b1 !! ts = None)
         /\ (cursor b1 <= ts -> slots b1 !! ts = Some f).
Proof.
  intros Hwf Hm Hperm Hnodup Hdue Hroom.
  pose proof (wf_frame_samples b Hwf) as Hstep.
  assert (Hkeys : (timed <$> arrivals).*1 ≡ₚ due.*1)
    by (rewrite Hperm; reflexivity).
  assert (Hlen : length arrivals = length due)
    by (rewrite <- (length_fmap timed arrivals), Hperm; reflexivity).
  destruct (put_all_accept arrivals b Hwf)
    as (Hs & Hw & Hc & Hcur & Hl & Hd & Hu).
  { rewrite Hkeys. exact Hnodup. }
  { intros ts Hts. rewrite Hkeys in Hts.
    destruct (Hdue ts Hts) as [Hfree [k ->]]. split; [nia | exact Hfree]. }
  { lia. }
  rewrite (list_to_map_proper _ _ ltac:(rewrite Hkeys; exact Hnodup) Hperm)
    in Hs.
  set (b0 := put_all arrivals b) in *.
  assert (Hfs0 : frame_samples b0 = frame_samples b)
    by (unfold frame_samples; rewrite Hc; reflexivity).
  rewrite get_run; rewrite ?Hfs0; [|nia|lia|apply Z.mod_mul; lia].
  rewrite Z.div_mul, Nat2Z.id by lia.
  destruct (get_chunks_playout m b0) as (Hout & Hgone & Hkept); [lia|].
  rewrite Hs, Hcur, Hfs0 in Hout. rewrite Hcur, Hfs0 in Hgone, Hkept.
  destruct (get_chunks_counters m b0) as [Hl1 Hd1].
  eexists. split; [rewrite Hout; reflexivity|].
  rewrite get_chunks_cursor, Hcur, Hfs0.
  split; [reflexivity|]. split; [congruence|]. split; [congruence|].
  intros ts f Hin.
  assert (Hlook : (list_to_map due ∪ slots b : gmap Z frame) !! ts = Some f).
  { apply lookup_union_Some_l. apply elem_of_list_to_map; assumption. }
  split; [exact Hlook|].
  destruct (Hdue ts) as [_ [k ->]].
  { apply list_elem_of_fmap. exists (ts, f). split; [reflexivity | exact Hin]. }
  split.
  - intros Hplayed. apply Hgone. nia.
  - intros Hpending. rewrite Hkept; [rewrite Hs; exact Hlook|].
    intros j Hj. nia.
Qed.

(** A [get] on a buffer whose pending frames are all behind the cursor
    finds none of them: it returns silence and leaves them where they
    are. *)
Lemma get_chunks_behind (k : nat) b :
  0 <= frame_samples b -> behind b ->
  (get_chunks k b).2 = replicate (k * Z.to_nat (frame_samples b)) 0
  /\ slots (get_chunks k b).1 = slots b.
Proof.
  revert b. induction k as [|k IH]; intros b Hstep Hbehind.
  - split; reflexivity.
  - rewrite get_chunks_S. cbn [fst snd].
    assert (Hnone : slots b !! cursor b = None).
    { destruct (slots b !! cursor b) eqn:Hslot; [|reflexivity].
      specialize (Hbehind (cursor b) ltac:(rewrite Hslot; eauto)). lia. }
    assert (Hchunk : get_chunk b
                     = (mkBuffer (cfg b) (slots b)
                          (cursor b + frame_samples b) (target_delay_ms b)
                          (estimator b) (late_count b) (underrun_count b + 1)
                          (duplicate_count b),
                        replicate (Z.to_nat (frame_samples b)) 0)).
    { unfold get_chunk. rewrite Hnone. reflexivity. }
    rewrite Hchunk. cbn [fst snd].
    destruct (IH (mkBuffer (cfg b) (slots b) (cursor b + frame_samples b)
                    (target_delay_ms b) (estimator b) (late_count b)
                    (underrun_count b + 1) (duplicate_count b)))
      as [Hout Hslots].
    + exact Hstep.
    + intros ts Hts. specialize (Hbehind ts Hts). simpl. lia.
    + rewrite Hout, Hslots. split; [|reflexivity].
      change (frame_samples (mkBuffer (cfg b) (slots b)
                (cursor b + frame_samples b) (target_delay_ms b)
                (estimator b) (late_count b) (underrun_count b + 1)
                (duplicate_count b))) with (frame_samples b).
      rewrite <- replicate_add. reflexivity.
Qed.

Lemma get_behind n b :
  behind b ->
  behind (get n b).1
  /\ slots (get n b).1 = slots b
  /\ forall out, (get n b).2 = Returned out -> out = replicate (Z.to_nat n) 0.
Proof.
  intros Hbehind. unfold get.
  destruct (0 <? n) eqn:Hn; cbn [andb];
    [|split; [exact Hbehind|]; split; [reflexivity | discriminate]].
  destruct (0 <? frame_samples b) eqn:Hfs; cbn [andb];
    [|split; [exact Hbehind|]; split; [reflexivity | discriminate]].
  destruct (n mod frame_samples b =? 0) eqn:Hmod;
    [|split; [exact Hbehind|]; split; [reflexivity | discriminate]].
  apply Z.ltb_lt in Hn, Hfs. apply Z.eqb_eq in Hmod.
  destruct (get_chunks (Z.to_nat (n / frame_samples b)) b) as [b1 out] eqn:Hrun.
  pose proof (get_chunks_behind (Z.to_nat (n / frame_samples b)) b
                ltac:(lia) Hbehind) as [Hout Hslots].
  pose proof (get_chunks_cursor (Z.to_nat (n / frame_samples b)) b) as Hcur.
  rewrite Hrun in Hout, Hslots, Hcur. cbn [fst snd] in *.
  split; [|split; [exact Hslots|]].
  - intros ts Hts. rewrite Hslots in Hts. specialize (Hbehind ts Hts).
    rewrite Hcur. nia.
  - intros out' [= <-]. rewrite Hout. f_equal.
    rewrite <- Z2Nat.inj_mul; [|apply Z.div_pos; lia|lia]. f_equal.
    pose proof (Z.div_mod n (frame_samples b) ltac:(lia)). lia.
Qed.

Lemma gets_behind (ns : list Z) b :
  behind b -> slots (run (Get <$> ns) b) = slots b.
Proof.
  revert b. induction ns as [|n ns IH]; intros b Hbehind; [reflexivity|].
  cbn [fmap list_fmap run foldl step].
  destruct (get_behind n b Hbehind) as (Hb1 & Hs1 & _).
  change (foldl step (get n b).1 (Get <$> ns))
    with (run (Get <$> ns) (get n b).1).
  rewrite IH by exact Hb1. exact Hs1.
Qed.

(** X17: the assertion of [TestJitterBuffer.test_put_get] holds on the
    jitter buffer of section 4.1.  For the buffer the test builds (16 kHz,
    20 ms frames, delays 40 to 200 ms), whatever its capacity and delay
    estimator, and for any two frames of 320 samples put at timestamps 0 and
    320, [get(320)] returns 320 samples; with room for two frames they are
    the samples of the first frame. *)
Theorem test_put_get_passes (capacity : nat) (audio1 audio2 : frame) b :
  length audio1 = 320%nat -> length audio2 = 320%nat ->
  create (mkConfig 16000 20 40 200 capacity) = Returned b ->
  exists b1 output,
    get 320 (put audio2 320 1 (put audio1 0 0 b)) = (b1, Returned output)
    /\ length output = 320%nat
    /\ ((2 <= capacity)%nat -> output = audio1).
Proof.
  intros Hlen1 Hlen2 Hcreate.
  destruct (create_wf _ _ Hcreate) as (Hwf & Hsized & Hempty).
  assert (Hcfg : cfg b = mkConfig 16000 20 40 200 capacity).
  { unfold create in Hcreate.
    destruct (valid_config _); [|discriminate].
    injection Hcreate as <-. reflexivity. }
  assert (Hcur : cursor b = 0).
  { unfold create in Hcreate.
    destruct (valid_config _); [|discriminate].
    injection Hcreate as <-. reflexivity. }
  assert (Hfs : frame_samples b = 320)
    by (unfold frame_samples; rewrite Hcfg; reflexivity).
  set (b2 := put audio2 320 1 (put audio1 0 0 b)).
  assert (Hfs2 : frame_samples b2 = 320)
    by (unfold frame_samples, b2; rewrite !put_cfg, Hcfg; reflexivity).
  assert (Hsized2 : frames_sized b2).
  { unfold b2. apply put_sized.
    - unfold frame_samples. rewrite put_cfg. fold (frame_samples b). lia.
    - apply put_sized; [lia | exact Hsized]. }
  rewrite get_run; rewrite ?Hfs2; [|lia|lia|reflexivity].
  change (Z.to_nat (320 / 320)) with 1%nat.
  destruct (get_chunks_sized 1 b2 ltac:(lia) Hsized2) as [Hout _].
  eexists _, _. split; [reflexivity|]. split; [lia|].
  intros Hroom.
  destruct (put_accept audio1 0 0 b Hwf) as (Hs1 & Hwf1 & _);
    [rewrite Hempty; apply lookup_empty | lia
     | rewrite Hempty, Hcfg, map_size_empty; simpl; lia |].
  destruct (put_accept audio2 320 1 (put audio1 0 0 b) Hwf1) as (Hs2 & _).
  { rewrite Hs1, Hempty, lookup_insert_ne by lia. apply lookup_empty. }
  { rewrite put_cursor. lia. }
  { rewrite Hs1, Hempty, put_cfg, Hcfg.
    rewrite map_size_insert_None by apply lookup_empty.
    rewrite map_size_empty. simpl. lia. }
  fold b2 in Hs2.
  rewrite get_chunks_S. simpl. rewrite app_nil_r.
  unfold get_chunk.
  assert (Hcur2 : cursor b2 = 0) by (unfold b2; rewrite !put_cursor; exact Hcur).
  rewrite Hcur2, Hs2, Hs1, lookup_insert_ne by lia.
  rewrite lookup_insert_eq. reflexivity.
Qed.

End JitterBufferFacts.


(** * More properties of the pipeline orchestrator *)

Section PipelineFrames.

Context {Aec Dn Vd Ag Cn Lm dB Cd Jb P D : Type}.
Context `{!EchoCanceller Aec, !Denoiser Dn, !VAD Vd, !AGC Ag,
          !ComfortNoise Cn, !AudioLevel Lm dB, !G711Codec Cd,
          !JitterBuffer Jb, !VADProbability Vd P, !JitterBufferStats Jb D}.

Abbreviation pipeline := (VoIPAudioPipeline Aec Dn Vd Ag Cn Lm Cd Jb).

Implicit Types p q : pipeline.

(** *** Relations every step of a body keeps

    A relation between the state before and after, reflexive and
    transitive, holds across a body as soon as it holds across each of
    its statements, whether the body returns or raises. *)

Section Across.

Variable R : pipeline -> pipeline -> Prop.
Hypothesis R_refl : forall p, R p p.
Hypothesis R_trans : forall p q r, R p q -> R q r -> R p r.

Lemma across_ret {A} (a : A) : forall p, R p (ret a p).1.
Proof. intros p. apply R_refl. Qed.

Lemma across_bind {A B} (m : method pipeline A) (k : A -> method pipeline B) :
  (forall p, R p (m p).1) ->
  (forall a p, R p (k a p).1) ->
  forall p, R p (bind m k p).1.
Proof.
  intros Hm Hk p. unfold bind.
  specialize (Hm p). destruct (m p) as [p1 [a|e]]; simpl in *.
  - eapply R_trans; [exact Hm | apply Hk].
  - exact Hm.
Qed.

Lemma across_invoke {S A} (get : pipeline -> S) set c (m : method S A) :
  (forall s p, R p (set s (log_call c p))) ->
  forall p, R p (invoke get set c m p).1.
Proof. intros Hset p. rewrite invoke_run. apply Hset. Qed.

Lemma across_query {S A} (get : pipeline -> S) set (m : method S A) :
  (forall s p, R p (set s p)) ->
  forall p, R p (query get set m p).1.
Proof.
  intros Hset p. unfold query. destruct (m (get p)). apply Hset.
Qed.

Lemma across_stats_add key n :
  (forall p v, stats p !! key = Some v ->
               R p (set_stats (<[key := v + n]> (stats p)) p)) ->
  forall p, R p (stats_add key n p).1.
Proof.
  intros Hadd p. unfold stats_add.
  destruct (stats p !! key) as [v|] eqn:Hv; [apply Hadd, Hv | apply R_refl].
Qed.

Lemma across_if {A} (b : bool) (m1 m2 : method pipeline A) :
  (forall p, R p (m1 p).1) -> (forall p, R p (m2 p).1) ->
  forall p, R p ((if b then m1 else m2) p).1.
Proof. destruct b; auto. Qed.

End Across.

(** Walk through a method body, leaving one goal per statement. *)
Ltac across R Hrefl Htrans :=
  repeat first
    [ apply (across_ret R Hrefl)
    | apply (across_bind R Htrans); [|intros ?; cbv beta]
    | apply (across_if R)
    | apply (across_invoke R)
    | apply (across_query R)
    | apply (across_stats_add R Hrefl) ].

Lemma grows_refl (st : gmap string Z) : grows st st.
Proof. intros key v Hv. exists v. split; [exact Hv | lia]. Qed.

Lemma grows_trans (a b c : gmap string Z) : grows a b -> grows b c -> grows a c.
Proof.
  intros Hab Hbc key v Hv.
  destruct (Hab key v Hv) as (w & Hw & Hle).
  destruct (Hbc key w Hw) as (x & Hx & Hle').
  exists x. split; [exact Hx | lia].
Qed.

Lemma grows_insert (st : gmap string Z) key v n :
  st !! key = Some v -> 0 <= n -> grows st (<[key := v + n]> st).
Proof.
  intros Hv Hn k w Hw. destruct (decide (key = k)) as [<-|Hne].
  - exists (v + n). rewrite lookup_insert_eq. split; [reflexivity|].
    rewrite Hv in Hw. injection Hw as <-. lia.
  - exists w. rewrite lookup_insert_ne by exact Hne. split; [exact Hw | lia].
Qed.

Lemma stats_grow_refl p : stats_grow p p.
Proof. apply grows_refl. Qed.

Lemma stats_grow_trans p q r : stats_grow p q -> stats_grow q r -> stats_grow p r.
Proof. apply grows_trans. Qed.

Ltac grow_step :=
  first
    [ intros ? ?; apply grows_refl
    | intros ? ? ?; apply grows_insert; [assumption | lia] ].

Lemma process_capture_grows captured playback p :
  stats_grow p (process_capture captured playback p).1.
Proof.
  revert p. unfold process_capture.
  cbv [mbind pipeline_bind mret pipeline_ret].
  across (@stats_grow Aec Dn Vd Ag Cn Lm Cd Jb)
    stats_grow_refl stats_grow_trans; try grow_step.
Qed.

Lemma send_packet_grows encoded ts sq p :
  stats_grow p (send_packet encoded ts sq p).1.
Proof.
  revert p. unfold send_packet.
  across (@stats_grow Aec Dn Vd Ag Cn Lm Cd Jb)
    stats_grow_refl stats_grow_trans; try grow_step.
Qed.

Lemma receive_packet_grows encoded ts sq p :
  stats_grow p (receive_packet encoded ts sq p).1.
Proof.
  revert p. unfold receive_packet.
  cbv [mbind pipeline_bind mret pipeline_ret].
  across (@stats_grow Aec Dn Vd Ag Cn Lm Cd Jb)
    stats_grow_refl stats_grow_trans; try grow_step.
Qed.

Lemma reset_grows p : stats_grow p (reset p).1.
Proof.
  revert p. unfold reset.
  cbv [mbind pipeline_bind mret pipeline_ret].
  across (@stats_grow Aec Dn Vd Ag Cn Lm Cd Jb)
    stats_grow_refl stats_grow_trans; try grow_step.
Qed.

Lemma perform_grows (r : request) p : stats_grow p (perform r p).
Proof.
  destruct r; simpl.
  - apply process_capture_grows.
  - apply send_packet_grows.
  - apply receive_packet_grows.
  - unfold get_playback_audio. rewrite invoke_run. apply grows_refl.
  - unfold get_level_db. rewrite invoke_run. apply grows_refl.
  - unfold get_speech_probability, query.
    destruct (vad_get_probability (vad p)). apply grows_refl.
  - unfold get_jitter_stats, query.
    destruct (jitter_buffer_get_stats (jitter_buffer p)). apply grows_refl.
  - apply reset_grows.
Qed.

Lemma history_grows (rs : list request) p : stats_grow p (history rs p).
Proof.
  revert p. induction rs as [|r rs IH]; intros p; simpl.
  - apply stats_grow_refl.
  - eapply stats_grow_trans; [apply perform_grows | apply IH].
Qed.

Lemma initial_stats_lookup key :
  key ∈ counter_names -> (initial_stats : gmap string Z) !! key = Some 0.
Proof.
  unfold counter_names. rewrite !elem_of_cons, elem_of_nil.
  intros [->|[->|[->|[->|[->|[->|[]]]]]]]; reflexivity.
Qed.

(** X1: the statistics only accumulate.  Over any history of calls of the
    methods of a pipeline object, whatever they return or raise, no key of
    the statistics dictionary disappears and no counter decreases; on an
    object built by [__init__] the six counters are therefore always there,
    and never negative. *)
Theorem counters_never_decrease (rs : list request) p :
  grows (stats p) (stats (history rs p))
  /\ forall rate ms a d v g c l k j key,
       key ∈ counter_names ->
       exists n,
         stats (history rs (init rate ms a d v g c l k j)) !! key = Some n
         /\ 0 <= n.
Proof.
  split; [apply history_grows|].
  intros rate ms a d v g c l k j key Hkey.
  apply (history_grows rs (init rate ms a d v g c l k j) key 0).
  simpl. apply initial_stats_lookup, Hkey.
Qed.

(** *** Where the exceptions come from *)

Lemma bind_raised_inv {A B} (m : method pipeline A)
    (k : A -> method pipeline B) p q e :
  bind m k p = (q, Raised e) ->
  m p = (q, Raised e)
  \/ exists a p1, m p = (p1, Returned a) /\ k a p1 = (q, Raised e).
Proof.
  unfold bind. destruct (m p) as [p1 [a|e1]]; intros Hk.
  - right. exists a, p1. split; [reflexivity | exact Hk].
  - left. injection Hk as <- <-. reflexivity.
Qed.

Lemma invoke_raised_inv {S A} (get : pipeline -> S) set c (m : method S A)
    p q e :
  invoke get set c m p = (q, Raised e) ->
  raises m (get p) e /\ q = set (m (get p)).1 (log_call c p).
Proof.
  rewrite invoke_run. unfold raises. intros [= <- ->]. split; reflexivity.
Qed.

Lemma stats_add_raised_inv key n p q e :
  stats_add key n p = (q, Raised e) -> stats p !! key = None.
Proof.
  unfold stats_add. destruct (stats p !! key); [discriminate | reflexivity].
Qed.

Lemma process_capture_raised_inv captured playback p q e :
  Forall (fun key => is_Some (stats p !! key)) counter_names ->
  process_capture captured playback p = (q, Raised e) ->
  capture_fault captured playback p e.
Proof.
  intros Hkeys Hrun.
  assert (Hkey : forall key, key ∈ counter_names -> stats p !! key <> None).
  { intros key Hin Hnone. rewrite Forall_forall in Hkeys.
    destruct (Hkeys key Hin) as [v Hv]. congruence. }
  unfold process_capture in Hrun.
  cbv [mbind pipeline_bind mret pipeline_ret] in Hrun.
  unfold capture_fault.
  apply bind_raised_inv in Hrun as [Hrun | (ec & p1 & Haec & Hrun)].
  { apply invoke_raised_inv in Hrun as [Hr _]. left. exact Hr. }
  apply invoke_returned in Haec as [Haec ->].
  right. exists ec. split; [exact Haec|].
  apply bind_raised_inv in Hrun as [Hrun | (dn & p1 & Hdn & Hrun)].
  { apply invoke_raised_inv in Hrun as [Hr _]. left. exact Hr. }
  apply invoke_returned in Hdn as [Hdn ->].
  right. exists dn. split; [exact Hdn|].
  apply bind_raised_inv in Hrun as [Hrun | (b & p1 & Hvad & Hrun)].
  { apply invoke_raised_inv in Hrun as [Hr _]. left. exact Hr. }
  apply invoke_returned in Hvad as [Hvad ->].
  right.
  apply bind_raised_inv in Hrun as [Hrun | (u & p1 & Hadd & Hrun)].
  { apply stats_add_raised_inv in Hrun. simpl in Hrun.
    exfalso. apply (Hkey "frames_processed"); [|exact Hrun].
    unfold counter_names. set_solver. }
  apply stats_add_returned in Hadd as (v & Hv & ->). simpl in Hv.
  destruct b.
  - left. split; [exact Hvad|]. unfold speech_branch_fault.
    apply bind_raised_inv in Hrun as [Hrun | (norm & p1 & Hagc & Hrun)].
    { apply invoke_raised_inv in Hrun as [Hr _]. left. exact Hr. }
    apply invoke_returned in Hagc as [Hagc ->].
    right.
    apply bind_raised_inv in Hrun as [Hrun | ([] & p1 & Hlm & Hrun)].
    { apply invoke_raised_inv in Hrun as [Hr _]. left.
      exists norm. split; [exact Hagc | exact Hr]. }
    apply invoke_returned in Hlm as [Hlm ->].
    right. exists norm. split; [exact Hagc|]. split; [exact Hlm|].
    apply bind_raised_inv in Hrun as [Hrun | (enc & p1 & Henc & Hrun)].
    { apply invoke_raised_inv in Hrun as [Hr _]. exact Hr. }
    apply invoke_returned in Henc as [Henc ->].
    exfalso.
    apply bind_raised_inv in Hrun as [Hrun | (u1 & p1 & Hadd & Hrun)].
    { apply stats_add_raised_inv in Hrun. simpl in Hrun.
      rewrite lookup_insert_ne in Hrun by discriminate.
      apply (Hkey "speech_frames"); [|exact Hrun].
      unfold counter_names. set_solver. }
    apply stats_add_returned in Hadd as (v1 & Hv1 & ->). simpl in Hv1.
    apply bind_raised_inv in Hrun as [Hrun | (u2 & p1 & Hadd & Hrun)].
    { apply stats_add_raised_inv in Hrun. simpl in Hrun.
      rewrite !lookup_insert_ne in Hrun by discriminate.
      apply (Hkey "bytes_encoded"); [|exact Hrun].
      unfold counter_names. set_solver. }
    discriminate Hrun.
  - right. split; [exact Hvad|].
    apply bind_raised_inv in Hrun as [Hrun | ([] & p1 & Hcn & Hrun)].
    { apply invoke_raised_inv in Hrun as [Hr _]. exact Hr. }
    apply invoke_returned in Hcn as [Hcn ->].
    exfalso.
    apply bind_raised_inv in Hrun as [Hrun | (u1 & p1 & Hadd & Hrun)].
    { apply stats_add_raised_inv in Hrun. simpl in Hrun.
      rewrite lookup_insert_ne in Hrun by discriminate.
      apply (Hkey "silence_frames"); [|exact Hrun].
      unfold counter_names. set_solver. }
    discriminate Hrun.
Qed.

Lemma history_keys (rs : list request) rate ms a d v g c l k j :
  Forall (fun key =>
            is_Some (stats (history rs (init rate ms a d v g c l k j)) !! key))
    counter_names.
Proof.
  apply Forall_forall. intros key Hkey.
  destruct (history_grows rs (init rate ms a d v g c l k j) key 0)
    as (n & Hn & _).
  - simpl. apply initial_stats_lookup, Hkey.
  - exists n. exact Hn.
Qed.

(** X2: on a pipeline object built by [__init__] and used through its
    methods, [process_capture] raises nothing of its own: when it raises,
    the exception is the one a collaborator raised in its call (the echo
    canceller, the denoiser, the VAD, then the AGC, the level meter or the
    codec on speech, the comfort-noise analysis on silence), the calls
    before it having returned.  In particular the updates of the statistics
    never raise [KeyError]. *)
Theorem process_capture_raises_only_faults (rs : list request)
    rate ms a d v g c l k j captured playback q e :
  process_capture captured playback
    (history rs (init rate ms a d v g c l k j)) = (q, Raised e) ->
  capture_fault captured playback
    (history rs (init rate ms a d v g c l k j)) e.
Proof.
  apply process_capture_raised_inv. apply history_keys.
Qed.

(** X3: when the echo canceller, the denoiser or the VAD raises,
    [process_capture] raises that exception before it has counted the
    frame: the statistics are exactly as they were, and neither the
    speech-branch collaborators, the comfort-noise generator nor the jitter
    buffer has been touched. *)
Theorem front_end_fault_keeps_stats captured playback p e :
  front_end_fault captured playback p e ->
  exists q,
    process_capture captured playback p = (q, Raised e)
    /\ stats q = stats p
    /\ agc q = agc p /\ level_meter q = level_meter p /\ codec q = codec p
    /\ comfort_noise q = comfort_noise p
    /\ jitter_buffer q = jitter_buffer p.
Proof.
  intros Hfault. unfold process_capture.
  cbv [mbind pipeline_bind mret pipeline_ret].
  destruct Hfault as [Haec | [(ec & Haec & Hdn) | (ec & dn & Haec & Hdn & Hvad)]].
  - eexists. split.
    + apply bind_raised. apply invoke_raise. exact Haec.
    + repeat split; reflexivity.
  - eexists. split.
    + erewrite bind_step; [|apply invoke_step; exact Haec].
      apply bind_raised. apply invoke_raise. exact Hdn.
    + repeat split; reflexivity.
  - eexists. split.
    + erewrite bind_step; [|apply invoke_step; exact Haec].
      erewrite bind_step; [|apply invoke_step; exact Hdn].
      apply bind_raised. apply invoke_raise. exact Hvad.
    + repeat split; reflexivity.
Qed.

(** *** Totals over a run of captured frames *)

Tactic Notation "call" hyp(H) "as" simple_intropattern(a) ident(Ha) :=
  let p1 := fresh "p" in
  apply bind_returned in H as (a & p1 & Ha & H);
  apply invoke_returned in Ha as [Ha ->].

Tactic Notation "add" hyp(H) "as" ident(v) ident(Hv) :=
  let u := fresh "u" in
  let p1 := fresh "p" in
  let Hm := fresh "Hm" in
  apply bind_returned in H as (u & p1 & Hm & H);
  apply stats_add_returned in Hm as (v & Hv & ->);
  simpl in Hv.

Lemma process_capture_counters captured playback p q r :
  process_capture captured playback p = (q, Returned r) ->
  counter "frames_processed" (stats q)
  = counter "frames_processed" (stats p) + 1
  /\ counter "speech_frames" (stats q)
     = counter "speech_frames" (stats p) + (if r is Some _ then 1 else 0)
  /\ counter "silence_frames" (stats q)
     = counter "silence_frames" (stats p) + (if r is Some _ then 0 else 1)
  /\ counter "bytes_encoded" (stats q)
     = counter "bytes_encoded" (stats p) + Z.of_nat (length (default [] r))
  /\ counter "packets_sent" (stats q) = counter "packets_sent" (stats p)
  /\ counter "packets_received" (stats q)
     = counter "packets_received" (stats p).
Proof.
  intros Hrun. unfold process_capture in Hrun.
  cbv [mbind pipeline_bind mret pipeline_ret] in Hrun.
  call Hrun as ec Haec. call Hrun as dn Hdn. call Hrun as b Hvad.
  add Hrun as v Hv.
  destruct b.
  - call Hrun as norm Hagc. call Hrun as [] Hlm. call Hrun as enc Henc.
    add Hrun as v1 Hv1. add Hrun as v2 Hv2. injection Hrun as <- <-.
    unfold counter. simpl. simplify_map_eq. simpl.
    repeat split; lia.
  - call Hrun as [] Hcn. add Hrun as v1 Hv1. injection Hrun as <- <-.
    unfold counter. simpl. simplify_map_eq. simpl.
    repeat split; lia.
Qed.

Lemma count_speech_cons (r : option payload) rs :
  count_speech (r :: rs) = (if r is Some _ then 1 else 0) + count_speech rs.
Proof.
  unfold count_speech. rewrite filter_cons.
  destruct r; simpl.
  - destruct (decide (is_Some (Some p))) as [|Hn]; [simpl; lia|].
    exfalso. apply Hn. eexists. reflexivity.
  - destruct (decide (is_Some (@None payload))) as [[x Hx]|]; [discriminate|].
    lia.
Qed.

Lemma count_silence_cons (r : option payload) rs :
  count_silence (r :: rs) = (if r is Some _ then 0 else 1) + count_silence rs.
Proof.
  unfold count_silence. rewrite filter_cons.
  destruct r; simpl.
  - destruct (decide (Some p = None)); [discriminate | lia].
  - destruct (decide (@None payload = None)); [simpl; lia | congruence].
Qed.

(** X4: after a run of [process_capture] calls that all returned,
    [frames_processed] has grown by the number of calls, [speech_frames] by
    the number of payloads returned, [silence_frames] by the number of
    [None] results and [bytes_encoded] by the total length of the payloads;
    so [frames_processed] has grown by as much as [speech_frames] and
    [silence_frames] together, and the packet counters have not moved. *)
Theorem process_all_totals inputs p q rs :
  process_all inputs p = (q, Returned rs) ->
  length rs = length inputs
  /\ counter "frames_processed" (stats q)
     = counter "frames_processed" (stats p) + Z.of_nat (length inputs)
  /\ counter "speech_frames" (stats q)
     = counter "speech_frames" (stats p) + count_speech rs
  /\ counter "silence_frames" (stats q)
     = counter "silence_frames" (stats p) + count_silence rs
  /\ counter "bytes_encoded" (stats q)
     = counter "bytes_encoded" (stats p) + total_bytes rs
  /\ count_speech rs + count_silence rs = Z.of_nat (length inputs)
  /\ counter "packets_sent" (stats q) = counter "packets_sent" (stats p)
  /\ counter "packets_received" (stats q)
     = counter "packets_received" (stats p).
Proof.
  revert p rs.
  induction inputs as [|[captured playback] rest IH]; intros p rs Hrun.
  - simpl in Hrun. injection Hrun as <- <-.
    unfold count_speech, count_silence. simpl. repeat split; lia.
  - simpl in Hrun.
    apply bind_returned in Hrun as (r & p1 & Hfirst & Hrun).
    apply bind_returned in Hrun as (rs' & p2 & Hrest & Hrun).
    injection Hrun as <- <-.
    apply process_capture_counters in Hfirst
      as (Hfp & Hsf & Hsil & Hbe & Hps & Hpr).
    destruct (IH p1 rs' Hrest)
      as (Hlen & Hfp' & Hsf' & Hsil' & Hbe' & Hsum & Hps' & Hpr').
    rewrite count_speech_cons, count_silence_cons.
    simpl length. simpl total_bytes.
    rewrite Hfp', Hsf', Hsil', Hbe', Hps', Hpr', Hfp, Hsf, Hsil, Hbe, Hps, Hpr.
    repeat split; try lia.
    destruct r; lia.
Qed.

(** X5: a packet is counted only once it is decoded and stored without a
    fault.  When the codec raises on the payload, [receive_packet] raises
    that exception, the jitter buffer is not called and the statistics are
    as they were; when the jitter buffer raises on the decoded frame,
    [receive_packet] raises that exception and the statistics are as they
    were. *)
Theorem receive_fault_not_counted encoded timestamp sequence p e :
  receive_fault encoded timestamp sequence p e ->
  exists q,
    receive_packet encoded timestamp sequence p = (q, Raised e)
    /\ stats q = stats p
    /\ (raises (codec_decode encoded) (codec p) e ->
        jitter_buffer q = jitter_buffer p
        /\ calls q = calls p ++ [CodecDecode encoded]).
Proof.
  intros Hfault. unfold receive_packet.
  cbv [mbind pipeline_bind mret pipeline_ret].
  destruct Hfault as [Hdec | (decoded & Hdec & Hput)].
  - eexists. split.
    + apply bind_raised. apply invoke_raise. exact Hdec.
    + split; [reflexivity|]. intros _. split; reflexivity.
  - eexists. split.
    + erewrite bind_step; [|apply invoke_step; exact Hdec].
      apply bind_raised. apply invoke_raise. exact Hput.
    + split; [reflexivity|]. intros Hdec'.
      unfold returns, raises in *. congruence.
Qed.

(** X6: [reset] stops at the first collaborator whose [reset] raises.
    Whatever the outcome, the calls it has made are the first [k] of the
    seven resets, in the order of the source, with [k] at least one; it
    returns only when all seven were made; a collaborator whose turn had not
    come keeps its state; and the codec and the statistics are never
    touched. *)
Theorem reset_stops_at_fault p :
  exists k,
    (1 <= k <= 7)%nat
    /\ calls (reset p).1 = calls p ++ take k reset_calls
    /\ ((exists u, (reset p).2 = Returned u) -> k = 7%nat)
    /\ ((k < 2)%nat -> denoiser (reset p).1 = denoiser p)
    /\ ((k < 3)%nat -> vad (reset p).1 = vad p)
    /\ ((k < 4)%nat -> agc (reset p).1 = agc p)
    /\ ((k < 5)%nat -> comfort_noise (reset p).1 = comfort_noise p)
    /\ ((k < 6)%nat -> level_meter (reset p).1 = level_meter p)
    /\ ((k < 7)%nat -> jitter_buffer (reset p).1 = jitter_buffer p)
    /\ codec (reset p).1 = codec p
    /\ stats (reset p).1 = stats p.
Proof.
  unfold reset. cbv [mbind pipeline_bind mret pipeline_ret].
  unfold bind. rewrite !invoke_run. simpl.
  destruct (aec_reset (aec p)) as [a1 [[]|e1]]; simpl;
    [|exists 1%nat; repeat split; intros; try lia; try reflexivity;
      destruct H as [u Hu]; discriminate Hu].
  destruct (denoiser_reset (denoiser p)) as [d1 [[]|e2]]; simpl;
    [|exists 2%nat; rewrite <- !app_assoc;
      repeat split; intros; try lia; try reflexivity;
      destruct H as [u Hu]; discriminate Hu].
  destruct (vad_reset (vad p)) as [v1 [[]|e3]]; simpl;
    [|exists 3%nat; rewrite <- !app_assoc;
      repeat split; intros; try lia; try reflexivity;
      destruct H as [u Hu]; discriminate Hu].
  destruct (agc_reset (agc p)) as [g1 [[]|e4]]; simpl;
    [|exists 4%nat; rewrite <- !app_assoc;
      repeat split; intros; try lia; try reflexivity;
      destruct H as [u Hu]; discriminate Hu].
  destruct (comfort_noise_reset (comfort_noise p)) as [c1 [[]|e5]]; simpl;
    [|exists 5%nat; rewrite <- !app_assoc;
      repeat split; intros; try lia; try reflexivity;
      destruct H as [u Hu]; discriminate Hu].
  destruct (level_meter_reset (level_meter p)) as [l1 [[]|e6]]; simpl;
    [|exists 6%nat; rewrite <- !app_assoc;
      repeat split; intros; try lia; try reflexivity;
      destruct H as [u Hu]; discriminate Hu].
  exists 7%nat. rewrite <- !app_assoc.
  repeat split; intros; try lia; reflexivity.
Qed.

(** *** The two paths *)

Lemma receive_side_kept_refl p : receive_side_kept p p.
Proof. repeat split; reflexivity. Qed.

Lemma receive_side_kept_trans p q r :
  receive_side_kept p q -> receive_side_kept q r -> receive_side_kept p r.
Proof.
  unfold receive_side_kept, kept.
  intros (? & ? & ? & ? & ?) (? & ? & ? & ? & ?).
  repeat split; congruence.
Qed.

Lemma capture_side_kept_refl p : capture_side_kept p p.
Proof. repeat split; reflexivity. Qed.

Lemma capture_side_kept_trans p q r :
  capture_side_kept p q -> capture_side_kept q r -> capture_side_kept p r.
Proof.
  unfold capture_side_kept, kept.
  intros (? & ? & ? & ? & ? & ? & ? & ? & ? & ? & ? & ?)
         (? & ? & ? & ? & ? & ? & ? & ? & ? & ? & ? & ?).
  repeat split; congruence.
Qed.

Ltac kept_step :=
  intros; repeat split; try reflexivity;
  unfold kept; simpl; rewrite lookup_insert_ne by discriminate; reflexivity.

(** X7: [process_capture] never touches the receive path.  Whatever it
    returns or raises, the jitter buffer, [packets_sent],
    [packets_received], [sample_rate] and [frame_size] are as they were. *)
Theorem process_capture_leaves_receive_side captured playback p :
  receive_side_kept p (process_capture captured playback p).1.
Proof.
  revert p. unfold process_capture.
  cbv [mbind pipeline_bind mret pipeline_ret].
  across (@receive_side_kept Aec Dn Vd Ag Cn Lm Cd Jb)
    receive_side_kept_refl receive_side_kept_trans; kept_step.
Qed.

Lemma receive_packet_capture_side encoded ts sq p :
  capture_side_kept p (receive_packet encoded ts sq p).1.
Proof.
  revert p. unfold receive_packet.
  cbv [mbind pipeline_bind mret pipeline_ret].
  across (@capture_side_kept Aec Dn Vd Ag Cn Lm Cd Jb)
    capture_side_kept_refl capture_side_kept_trans; kept_step.
Qed.

Lemma send_packet_capture_side encoded ts sq p :
  capture_side_kept p (send_packet encoded ts sq p).1.
Proof.
  revert p. unfold send_packet.
  across (@capture_side_kept Aec Dn Vd Ag Cn Lm Cd Jb)
    capture_side_kept_refl capture_side_kept_trans; kept_step.
Qed.

Lemma get_playback_audio_capture_side p :
  capture_side_kept p (get_playback_audio p).1.
Proof.
  unfold get_playback_audio. rewrite invoke_run. repeat split; reflexivity.
Qed.

(** X8: the receive path never touches the capture path.  Whatever
    [send_packet], [receive_packet], [get_playback_audio] and
    [get_jitter_stats] return or raise, the echo canceller, the denoiser,
    the VAD, the AGC, the comfort-noise generator, the level meter and the
    four capture counters are as they were; only the codec is shared. *)
Theorem receive_path_leaves_capture_side p :
  (forall encoded ts sq, capture_side_kept p (send_packet encoded ts sq p).1)
  /\ (forall encoded ts sq,
        capture_side_kept p (receive_packet encoded ts sq p).1)
  /\ capture_side_kept p (get_playback_audio p).1
  /\ capture_side_kept p (get_jitter_stats p).1.
Proof.
  split; [intros; apply send_packet_capture_side|].
  split; [intros; apply receive_packet_capture_side|].
  split; [apply get_playback_audio_capture_side|].
  unfold get_jitter_stats, query.
  destruct (jitter_buffer_get_stats (jitter_buffer p)).
  repeat split; reflexivity.
Qed.

(** *** The simulated call *)

Lemma query_run {S A} (get : pipeline -> S) set (m : method S A) p :
  query get set m p = (set (m (get p)).1 p, (m (get p)).2).
Proof. unfold query. destruct (m (get p)). reflexivity. Qed.

Lemma put_stamps_app (cs ds : list call) :
  put_stamps (cs ++ ds) = put_stamps cs ++ put_stamps ds.
Proof. apply omap_app. Qed.

(** What a returning [process_capture] leaves for the loop: the frame size,
    the packet counters, and no packet in the jitter buffer. *)
Lemma process_capture_made captured playback p q r :
  process_capture captured playback p = (q, Returned r) ->
  frame_size q = frame_size p
  /\ exists made, calls q = calls p ++ made /\ put_stamps made = [].
Proof.
  intros Hrun. unfold process_capture in Hrun.
  cbv [mbind pipeline_bind mret pipeline_ret] in Hrun.
  call Hrun as ec Haec. call Hrun as dn Hdn. call Hrun as b Hvad.
  add Hrun as v Hv.
  destruct b.
  - call Hrun as norm Hagc. call Hrun as [] Hlm. call Hrun as enc Henc.
    add Hrun as v1 Hv1. add Hrun as v2 Hv2. injection Hrun as <- <-.
    split; [reflexivity|]. eexists. split.
    + simpl. rewrite <- !app_assoc. reflexivity.
    + reflexivity.
  - call Hrun as [] Hcn. add Hrun as v1 Hv1. injection Hrun as <- <-.
    split; [reflexivity|]. eexists. split.
    + simpl. rewrite <- !app_assoc. reflexivity.
    + reflexivity.
Qed.

(** One iteration that returned: [sent] tells whether a packet went out. *)
Lemma simulate_frame_inv i captured playback sequence timestamp p q st :
  simulate_frame i captured playback sequence timestamp p = (q, Returned st) ->
  exists (sent : bool) (r : option payload) p1,
    process_capture captured playback p = (p1, Returned r)
    /\ sent = truthy r
    /\ st = (sequence + (if sent then 1 else 0), timestamp + frame_size p)
    /\ frame_size q = frame_size p
    /\ counter "packets_sent" (stats q)
       = counter "packets_sent" (stats p) + (if sent then 1 else 0)
    /\ counter "packets_received" (stats q)
       = counter "packets_received" (stats p) + (if sent then 1 else 0)
    /\ counter "frames_processed" (stats q)
       = counter "frames_processed" (stats p) + 1
    /\ counter "speech_frames" (stats q)
       = counter "speech_frames" (stats p) + (if r is Some _ then 1 else 0)
    /\ exists made,
         calls q = calls p ++ made
         /\ put_stamps made
            = if sent then [(timestamp, sequence)] else [].
Proof.
  intros Hrun. unfold simulate_frame in Hrun.
  apply bind_returned in Hrun as (r & p1 & Hcap & Hrun).
  exists (truthy r), r, p1. split; [exact Hcap|]. split; [reflexivity|].
  destruct (process_capture_made _ _ _ _ _ Hcap) as (Hfs1 & m1 & Hm1 & Hs1).
  destruct (process_capture_counters _ _ _ _ _ Hcap)
    as (Hfp & Hsf & _ & _ & Hps & Hpr).
  apply bind_returned in Hrun as (sequence1 & p2 & Hsend & Hrun).
  apply bind_returned in Hrun as (timestamp1 & p3 & Hts & Hrun).
  injection Hts as <- <-.
  apply bind_returned in Hrun as (audio & p4 & Hget & Hrun).
  unfold get_playback_audio in Hget.
  apply invoke_returned in Hget as [_ ->].
  apply bind_returned in Hrun as (u & p5 & Hrep & Hrun).
  injection Hrun as <- <-.
  assert (Hreport : frame_size p5 = frame_size p2
                    /\ stats p5 = stats p2
                    /\ exists m3, calls p5 = calls p2 ++ m3
                                  /\ put_stamps m3 = []).
  { destruct ((i + 1) mod 50 =? 0).
    - apply bind_returned in Hrep as (level & p6 & Hlevel & Hrep).
      unfold get_level_db in Hlevel.
      apply invoke_returned in Hlevel as [_ ->].
      apply bind_returned in Hrep as (prob & p7 & Hprob & Hrep).
      unfold get_speech_probability in Hprob. rewrite query_run in Hprob.
      injection Hprob as <- _. injection Hrep as <- _.
      split; [reflexivity|]. split; [reflexivity|]. eexists. split.
      + simpl. rewrite <- !app_assoc. reflexivity.
      + reflexivity.
    - injection Hrep as <- _.
      split; [reflexivity|]. split; [reflexivity|].
      exists [JitterBufferGet (frame_size p2)]. split; reflexivity. }
  destruct Hreport as (Hfs5 & Hst5 & m3 & Hm3 & Hs3).
  rewrite Hfs5, Hst5, Hm3.
  destruct (truthy r) eqn:Htruthy.
  - apply bind_returned in Hsend as (u1 & p6 & Hsent & Hsend).
    unfold send_packet in Hsent.
    apply stats_add_returned in Hsent as (v1 & Hv1 & ->).
    apply bind_returned in Hsend as (u2 & p7 & Hrecv & Hsend).
    injection Hsend as <- <-.
    unfold receive_packet in Hrecv.
    cbv [mbind pipeline_bind mret pipeline_ret] in Hrecv.
    call Hrecv as decoded Hdec. call Hrecv as [] Hput.
    apply stats_add_returned in Hrecv as (v2 & Hv2 & ->).
    simpl in Hv2. rewrite lookup_insert_ne in Hv2 by discriminate.
    simpl. rewrite Hfs1.
    split; [reflexivity|]. split; [reflexivity|].
    unfold counter in *.
    rewrite lookup_insert_ne by discriminate. rewrite lookup_insert_eq.
    rewrite lookup_insert_eq.
    rewrite !(lookup_insert_ne _ "packets_received") by discriminate.
    rewrite !(lookup_insert_ne _ "packets_sent") by discriminate.
    rewrite Hv1 in *. rewrite Hv2 in *. simpl in *.
    split; [lia|]. split; [lia|]. split; [exact Hfp|]. split; [exact Hsf|].
    eexists. split.
    + rewrite Hm1, <- !app_assoc. reflexivity.
    + rewrite !put_stamps_app, Hs1, Hs3. reflexivity.
  - injection Hsend as <- <-.
    rewrite Hfs1.
    split; [f_equal; lia|]. split; [reflexivity|].
    split; [lia|]. split; [lia|]. split; [exact Hfp|]. split; [exact Hsf|].
    eexists. split.
    + rewrite Hm1, <- !app_assoc. reflexivity.
    + rewrite !put_stamps_app, Hs1, Hs3. reflexivity.
Qed.

(** X9: the clocks of the simulated call.  When the loop of
    [simulate_voip_call] has run over its frames without a fault, the
    timestamp has advanced by one frame size per frame, silent or not; the
    sequence number has advanced once per packet sent, so by at most the
    number of frames; [packets_sent] and [packets_received] have both grown
    by exactly that advance, which is at most the growth of
    [speech_frames]; and [frames_processed] has grown by the number of
    frames. *)
Theorem simulate_clocks inputs i sequence timestamp p q st :
  simulate_frames i inputs sequence timestamp p = (q, Returned st) ->
  st.2 = timestamp + Z.of_nat (length inputs) * frame_size p
  /\ sequence <= st.1 <= sequence + Z.of_nat (length inputs)
  /\ counter "packets_sent" (stats q)
     = counter "packets_sent" (stats p) + (st.1 - sequence)
  /\ counter "packets_received" (stats q)
     = counter "packets_received" (stats p) + (st.1 - sequence)
  /\ counter "frames_processed" (stats q)
     = counter "frames_processed" (stats p) + Z.of_nat (length inputs)
  /\ st.1 - sequence
     <= counter "speech_frames" (stats q) - counter "speech_frames" (stats p)
  /\ frame_size q = frame_size p.
Proof.
  revert i sequence timestamp p.
  induction inputs as [|[captured playback] rest IH];
    intros i sequence timestamp p Hrun.
  - simpl in Hrun. injection Hrun as <- <-. simpl. repeat split; lia.
  - simpl in Hrun.
    apply bind_returned in Hrun as (st1 & p1 & Hframe & Hrun).
    apply simulate_frame_inv in Hframe
      as (sent & r & p0 & _ & Hsent & -> & Hfs & Hps & Hpr & Hfp & Hsf & _).
    apply IH in Hrun as (Hts & Hseq & Hps' & Hpr' & Hfp' & Hsf' & Hfs').
    simpl in *. rewrite Hfs in *.
    assert (Hle : (if sent then 1 else 0)
                  <= (if r is Some _ then 1 else 0)).
    { subst sent. destruct r as [[|x xs]|]; simpl; lia. }
    destruct sent; repeat split; lia.
Qed.

(** X10: the packets of the simulated call.  With a positive frame size,
    the packets the loop hands to the jitter buffer carry consecutive
    sequence numbers, starting from the initial one, and strictly
    increasing timestamps, each the timestamp of the frame it was made from
    (the start plus a multiple of the frame size): silence leaves gaps in
    the timestamps, never in the sequence numbers. *)
Theorem simulate_stamps inputs i sequence timestamp p q st :
  0 < frame_size p ->
  simulate_frames i inputs sequence timestamp p = (q, Returned st) ->
  exists made,
    calls q = calls p ++ made
    /\ (put_stamps made).*2
       = (fun k => sequence + Z.of_nat k)
           <$> seq 0 (length (put_stamps made))
    /\ Z.of_nat (length (put_stamps made)) = st.1 - sequence
    /\ StronglySorted Z.lt (put_stamps made).*1
    /\ Forall (fun ts => exists k, (k < length inputs)%nat
                                   /\ ts = timestamp + Z.of_nat k * frame_size p)
         (put_stamps made).*1.
Proof.
  intros Hpos. revert i sequence timestamp p Hpos.
  induction inputs as [|[captured playback] rest IH];
    intros i sequence timestamp p Hpos Hrun.
  - simpl in Hrun. injection Hrun as <- <-.
    exists []. rewrite app_nil_r. simpl.
    repeat split; try lia; constructor.
  - simpl in Hrun.
    apply bind_returned in Hrun as (st1 & p1 & Hframe & Hrun).
    apply simulate_frame_inv in Hframe
      as (sent & r & p0 & _ & _ & -> & Hfs & _ & _ & _ & _ & m1 & Hm1 & Hs1).
    simpl in Hrun.
    apply IH in Hrun as (m2 & Hm2 & Hseq & Hlen & Hsorted & Hall);
      [|rewrite Hfs; exact Hpos].
    rewrite Hfs in Hall.
    assert (Hall' : Forall (fun ts => exists k, (k < S (length rest))%nat
                              /\ ts = timestamp + Z.of_nat k * frame_size p)
                      (put_stamps m2).*1).
    { eapply Forall_impl; [exact Hall|]. intros ts (k & Hk & ->).
      exists (S k). split; [lia | lia]. }
    exists (m1 ++ m2). split; [rewrite Hm2, Hm1, app_assoc; reflexivity|].
    rewrite put_stamps_app, Hs1.
    destruct sent.
    + cbn [app length seq]. rewrite !fmap_cons. cbn [fst snd].
      split.
      { f_equal; [lia|]. rewrite Hseq, <- fmap_S_seq, <- list_fmap_compose.
        apply list_fmap_ext. intros _ k _. simpl. lia. }
      split; [cbn [fst] in Hlen; lia|]. split.
      { constructor; [exact Hsorted|].
        eapply Forall_impl; [exact Hall|]. intros ts (k & _ & ->).
        simpl. nia. }
      constructor; [|exact Hall'].
      exists 0%nat. split; lia.
    + cbn [app]. cbn [fst] in Hlen. rewrite Hseq at 1.
      split.
      { apply list_fmap_ext. intros _ k _. simpl. lia. }
      split; [lia|]. split; [exact Hsorted | exact Hall'].
Qed.

(** X11: the loop tests the payload for truth, not for [None].  A frame
    that [process_capture] took as speech but encoded to an empty payload
    is counted in [speech_frames] and yet neither sent nor received: the
    sequence number and both packet counters stay, no packet reaches the
    jitter buffer, and the timestamp still advances by one frame. *)
Theorem empty_payload_not_sent i captured playback sequence timestamp
    p p1 q st :
  process_capture captured playback p = (p1, Returned (Some [])) ->
  simulate_frame i captured playback sequence timestamp p = (q, Returned st) ->
  st = (sequence, timestamp + frame_size p)
  /\ counter "speech_frames" (stats q)
     = counter "speech_frames" (stats p) + 1
  /\ counter "packets_sent" (stats q) = counter "packets_sent" (stats p)
  /\ counter "packets_received" (stats q)
     = counter "packets_received" (stats p)
  /\ exists made, calls q = calls p ++ made /\ put_stamps made = [].
Proof.
  intros Hcap Hrun.
  apply simulate_frame_inv in Hrun
    as (sent & r & p0 & Hcap' & Hsent & -> & _ & Hps & Hpr & _ & Hsf & Hmade).
  rewrite Hcap in Hcap'. injection Hcap' as <- <-.
  simpl in Hsent. subst sent.
  split; [f_equal; lia|]. split; [exact Hsf|].
  split; [lia|]. split; [lia|]. exact Hmade.
Qed.

Lemma receive_packet_raised_inv encoded ts sq p q e :
  is_Some (stats p !! "packets_received") ->
  receive_packet encoded ts sq p = (q, Raised e) ->
  receive_fault encoded ts sq p e.
Proof.
  intros [v Hv] Hrun. unfold receive_packet in Hrun.
  cbv [mbind pipeline_bind mret pipeline_ret] in Hrun.
  unfold receive_fault.
  apply bind_raised_inv in Hrun as [Hrun | (decoded & p1 & Hdec & Hrun)].
  { apply invoke_raised_inv in Hrun as [Hr _]. left. exact Hr. }
  apply invoke_returned in Hdec as [Hdec ->].
  right. exists decoded. split; [exact Hdec|].
  apply bind_raised_inv in Hrun as [Hrun | ([] & p1 & Hput & Hrun)].
  { apply invoke_raised_inv in Hrun as [Hr _]. exact Hr. }
  apply invoke_returned in Hput as [Hput ->].
  apply stats_add_raised_inv in Hrun. simpl in Hrun. congruence.
Qed.

(** X16: on a pipeline object built by [__init__] and used through its
    methods, [receive_packet] raises nothing of its own: when it raises,
    the codec raised on the payload, or the jitter buffer raised on the
    decoded frame. *)
Theorem receive_packet_raises_only_faults (rs : list request)
    rate ms a d v g c l k j encoded ts sq q e :
  receive_packet encoded ts sq
    (history rs (init rate ms a d v g c l k j)) = (q, Raised e) ->
  receive_fault encoded ts sq (history rs (init rate ms a d v g c l k j)) e.
Proof.
  apply receive_packet_raised_inv.
  pose proof (history_keys rs rate ms a d v g c l k j) as Hkeys.
  rewrite Forall_forall in Hkeys. apply Hkeys.
  unfold counter_names. set_solver.
Qed.

End PipelineFrames.












(** * The loops of the example scripts *)

Section ExampleFacts.

Import Examples.

(** The [k]-th frame of [F] samples cut from [a]. *)
Lemma py_slice_frame (fs : Z) (k : nat) (a : list Z) :
  0 < fs ->
  py_slice (Z.of_nat k * fs) (Z.of_nat k * fs + fs) a
  = drop (k * Z.to_nat fs) (take (k * Z.to_nat fs + Z.to_nat fs) a).
Proof.
  intros Hfs. unfold py_slice.
  rewrite Z2Nat.inj_add, Z2Nat.inj_mul, Nat2Z.id by nia. reflexivity.
Qed.

Lemma py_slice_clipped (fs : Z) (k : nat) (a : list Z) :
  0 < fs ->
  py_slice (Z.of_nat k * fs)
    (Z.min (Z.of_nat k * fs + fs) (Z.of_nat (length a))) a
  = drop (k * Z.to_nat fs) (take (k * Z.to_nat fs + Z.to_nat fs) a).
Proof.
  intros Hfs. rewrite <- py_slice_frame by exact Hfs. unfold py_slice.
  f_equal. rewrite Z2Nat.inj_min, Nat2Z.id.
  destruct (Nat.min_spec (Z.to_nat (Z.of_nat k * fs + fs)) (length a))
    as [[Hlt ->] | [Hge ->]]; [reflexivity|].
  rewrite !take_ge by lia. reflexivity.
Qed.

(** Cutting [n] frames of [F] samples one after the other gives back the
    first [n * F] samples. *)
Lemma concat_frames (F n : nat) (a : list Z) :
  concat ((fun k => drop (k * F) (take (k * F + F) a)) <$> seq 0 n)
  = take (n * F) a.
Proof.
  induction n as [|n IH]; [reflexivity|].
  rewrite seq_S, fmap_app, concat_app, IH. cbn [fmap list_fmap concat plus].
  rewrite app_nil_r.
  transitivity (take (n * F) (take (n * F + F) a)
                ++ drop (n * F) (take (n * F + F) a)).
  - f_equal. rewrite take_take. f_equal. lia.
  - rewrite take_drop. f_equal. lia.
Qed.

Lemma frame_length (F k : nat) (a : list Z) :
  length (drop (k * F) (take (k * F + F) a))
  = (Nat.min (k * F + F) (length a) - k * F)%nat.
Proof. rewrite length_drop, length_take. reflexivity. Qed.

Lemma detector_frames_unfold (fs : Z) (a : list Z) :
  0 < fs ->
  detector_frames fs a
  = (fun k => drop (k * Z.to_nat fs) (take (k * Z.to_nat fs + Z.to_nat fs) a))
      <$> seq 0 (Z.to_nat ((Z.of_nat (length a) - 1) / fs)).
Proof.
  intros Hfs. unfold detector_frames, py_range.
  rewrite <- list_fmap_compose.
  replace (Z.of_nat (length a) - fs + fs - 1) with (Z.of_nat (length a) - 1)
    by lia.
  apply list_fmap_ext. intros _ k _. simpl. apply py_slice_frame, Hfs.
Qed.

Lemma delay_frames_unfold (fs : Z) (a : list Z) :
  0 < fs ->
  delay_frames fs a
  = (fun k => drop (k * Z.to_nat fs) (take (k * Z.to_nat fs + Z.to_nat fs) a))
      <$> seq 0 (Z.to_nat ((Z.of_nat (length a) + fs - 1) / fs)).
Proof.
  intros Hfs. unfold delay_frames, py_range.
  rewrite <- list_fmap_compose.
  apply list_fmap_ext. intros _ k _. simpl. apply py_slice_clipped, Hfs.
Qed.

(** The shape of the frames cut for the detector. *)
Lemma detector_frames_shape (fs : Z) (audio : list Z) :
  0 < fs ->
  Forall (fun f => Z.of_nat (length f) = fs) (detector_frames fs audio)
  /\ concat (detector_frames fs audio)
     = take (length (detector_frames fs audio) * Z.to_nat fs) audio
  /\ Z.of_nat (length (detector_frames fs audio))
     = Z.max 0 ((Z.of_nat (length audio) - 1) / fs).
Proof.
  intros Hfs. rewrite detector_frames_unfold by exact Hfs.
  set (n := Z.to_nat ((Z.of_nat (length audio) - 1) / fs)).
  assert (Hn : Z.of_nat n * fs <= Z.max 0 (Z.of_nat (length audio) - 1)).
  { unfold n. destruct (Z.le_gt_cases 0 ((Z.of_nat (length audio) - 1) / fs))
      as [Hpos|Hneg].
    - rewrite Z2Nat.id by exact Hpos.
      pose proof (Z.mul_div_le (Z.of_nat (length audio) - 1) fs Hfs). lia.
    - replace (Z.to_nat ((Z.of_nat (length audio) - 1) / fs)) with 0%nat
        by lia.
      lia. }
  split; [|split].
  - apply Forall_fmap, Forall_forall. intros k Hk. simpl.
    apply elem_of_seq in Hk. rewrite frame_length.
    assert (Z.of_nat k * fs + fs <= Z.of_nat n * fs) by nia.
    assert (Hle : (k * Z.to_nat fs + Z.to_nat fs <= length audio)%nat).
    { apply Nat2Z.inj_le. rewrite Nat2Z.inj_add, Nat2Z.inj_mul, Z2Nat.id; lia. }
    rewrite Nat.min_l by exact Hle. rewrite <- (Z2Nat.id fs) at 2 by lia. lia.
  - rewrite length_fmap, length_seq. apply concat_frames.
  - rewrite length_fmap, length_seq. unfold n. lia.
Qed.

(** X12: the frames [demonstrate_dtmf] hands to the detector are full
    frames, cut one after the other from the start of the audio; there are
    [(len(audio) - 1) // frame_size] of them (none for an empty audio). *)
Theorem detector_frames_full (fs : Z) (audio : list Z) :
  0 < fs ->
  Forall (fun f => Z.of_nat (length f) = fs) (detector_frames fs audio)
  /\ concat (detector_frames fs audio)
     = take (length (detector_frames fs audio) * Z.to_nat fs) audio
  /\ Z.of_nat (length (detector_frames fs audio))
     = Z.max 0 ((Z.of_nat (length audio) - 1) / fs).
Proof. intros Hfs. apply detector_frames_shape. exact Hfs. Qed.

(** X13: [demonstrate_dtmf] never shows the detector the end of the audio.
    The loop stops before [len(audio) - frame_size], so between one sample
    and a whole frame is left out at the end of any non-empty audio; when
    the audio is an exact number of frames, the last frame is the one left
    out. *)
Theorem detector_frames_drop_tail (fs : Z) (audio : list Z) :
  0 < fs -> audio <> [] ->
  Z.of_nat (length audio) - fs
  <= Z.of_nat (length (concat (detector_frames fs audio)))
  < Z.of_nat (length audio)
  /\ (Z.of_nat (length audio) mod fs = 0 ->
      concat (detector_frames fs audio)
      = take (length audio - Z.to_nat fs) audio).
Proof.
  intros Hfs Hne.
  assert (Hlen : 0 < Z.of_nat (length audio))
    by (destruct audio; [congruence | simpl; lia]).
  destruct (detector_frames_shape fs audio Hfs) as (_ & Hcat & Hcount).
  rewrite Hcat.
  assert (Hq : 0 <= (Z.of_nat (length audio) - 1) / fs)
    by (apply Z.div_pos; lia).
  rewrite Z.max_r in Hcount by exact Hq.
  pose proof (Z.div_mod (Z.of_nat (length audio) - 1) fs ltac:(lia)) as Hdm.
  pose proof (Z.mod_pos_bound (Z.of_nat (length audio) - 1) fs Hfs) as Hmod.
  assert (Hnat : Z.of_nat (length (detector_frames fs audio) * Z.to_nat fs)
                 = fs * ((Z.of_nat (length audio) - 1) / fs)).
  { rewrite Nat2Z.inj_mul, Hcount, Z2Nat.id by lia. lia. }
  split.
  - rewrite length_take, Nat2Z.inj_min, Hnat.
    remember (fs * ((Z.of_nat (length audio) - 1) / fs)) as played.
    remember ((Z.of_nat (length audio) - 1) mod fs) as left_over.
    lia.
  - intros Hexact. f_equal. apply Nat2Z.inj. rewrite Hnat.
    apply Z.mod_divide in Hexact as [k Hk]; [|lia].
    assert (Hk1 : 1 <= k) by nia.
    rewrite Nat2Z.inj_sub, Z2Nat.id by nia.
    rewrite Hk.
    replace (k * fs - 1) with ((k - 1) * fs + (fs - 1)) by lia.
    rewrite Z.div_add_l by lia. rewrite (Z.div_small (fs - 1) fs) by lia. lia.
Qed.

(** X14: the frames [demonstrate_delay] hands to the delay cover the whole
    audio: joined they give it back; every frame holds at least one and at
    most [frame_size] samples; and there are [ceil(len(audio) / frame_size)]
    of them. *)
Theorem delay_frames_cover (fs : Z) (audio : list Z) :
  0 < fs ->
  concat (delay_frames fs audio) = audio
  /\ Forall (fun f => 0 < Z.of_nat (length f) <= fs) (delay_frames fs audio)
  /\ Z.of_nat (length (delay_frames fs audio))
     = (Z.of_nat (length audio) + fs - 1) / fs.
Proof.
  intros Hfs. rewrite delay_frames_unfold by exact Hfs.
  set (n := Z.to_nat ((Z.of_nat (length audio) + fs - 1) / fs)).
  assert (Hq : 0 <= (Z.of_nat (length audio) + fs - 1) / fs)
    by (apply Z.div_pos; lia).
  pose proof (Z.div_mod (Z.of_nat (length audio) + fs - 1) fs ltac:(lia)) as Hdm.
  pose proof (Z.mod_pos_bound (Z.of_nat (length audio) + fs - 1) fs Hfs) as Hmod.
  assert (Hn : Z.of_nat n = (Z.of_nat (length audio) + fs - 1) / fs)
    by (unfold n; apply Z2Nat.id, Hq).
  split; [|split].
  - rewrite concat_frames. apply take_ge.
    apply Nat2Z.inj_le. rewrite Nat2Z.inj_mul, Hn, Z2Nat.id by lia. lia.
  - apply Forall_fmap, Forall_forall. intros k Hk. simpl.
    apply elem_of_seq in Hk. rewrite frame_length.
    assert (Hk' : Z.of_nat k * fs < Z.of_nat (length audio)) by nia.
    assert (Hkn : (k * Z.to_nat fs < length audio)%nat).
    { apply Nat2Z.inj_lt. rewrite Nat2Z.inj_mul, Z2Nat.id; lia. }
    rewrite <- (Z2Nat.id fs) at 2 by lia. lia.
  - rewrite length_fmap, length_seq. exact Hn.
Qed.

Lemma scan_down_spec (output : list Z) (threshold : Z) (i : nat) (fallback : Z) :
  (scan_down output threshold i fallback = fallback
   /\ forall j, (1 <= j <= i)%nat -> abs16 (nth j output 0) <= threshold)
  \/ exists t,
       scan_down output threshold i fallback = Z.of_nat t
       /\ (1 <= t <= i)%nat
       /\ threshold < abs16 (nth t output 0)
       /\ forall j, (t < j <= i)%nat -> abs16 (nth j output 0) <= threshold.
Proof.
  induction i as [|i IH].
  - left. split; [reflexivity|]. intros j Hj. lia.
  - cbn [scan_down].
    destruct (threshold <? abs16 (nth (S i) output 0)) eqn:Hloud.
    + right. exists (S i). apply Z.ltb_lt in Hloud.
      split; [reflexivity|]. split; [lia|]. split; [exact Hloud|].
      intros j Hj. lia.
    + apply Z.ltb_ge in Hloud.
      assert (Hstep : forall lo j, (lo <= j <= S i)%nat ->
                (forall j', (lo <= j' <= i)%nat ->
                            abs16 (nth j' output 0) <= threshold) ->
                abs16 (nth j output 0) <= threshold).
      { intros lo j Hj Hbelow.
        destruct (decide (j = S i)) as [->|Hne]; [exact Hloud|].
        apply Hbelow. lia. }
      destruct IH as [[Hfb Hquiet] | (t & Ht & Hrange & Hlouder & Hquiet)].
      * left. split; [exact Hfb|]. intros j Hj.
        apply (Hstep 1%nat); [lia|]. exact Hquiet.
      * right. exists t. split; [exact Ht|]. split; [lia|].
        split; [exact Hlouder|]. intros j Hj.
        apply (Hstep (S t)); [lia|]. intros j' Hj'. apply Hquiet. lia.
Qed.

Lemma scan_down_first (x y : Z) (rest : list Z) threshold i fallback :
  scan_down (x :: rest) threshold i fallback
  = scan_down (y :: rest) threshold i fallback.
Proof.
  induction i as [|i IH]; [reflexivity|].
  cbn [scan_down nth]. rewrite IH. reflexivity.
Qed.

(** X15: the tail length [demonstrate_reverb] computes is the greatest
    index, from 1 up, of a sample whose [int16] absolute value exceeds the
    threshold, and the length of the output when there is none.  The scan
    stops above index 0, so the first sample never counts; and a sample of
    -32768, whose [abs] is still -32768, never stops the scan for a
    non-negative threshold. *)
Theorem tail_samples_spec (output : list Z) (threshold : Z) :
  ((tail_samples output threshold = Z.of_nat (length output)
    /\ forall j, (1 <= j < length output)%nat ->
                 abs16 (nth j output 0) <= threshold)
   \/ exists t,
        tail_samples output threshold = Z.of_nat t
        /\ (1 <= t < length output)%nat
        /\ threshold < abs16 (nth t output 0)
        /\ forall j, (t < j < length output)%nat ->
                     abs16 (nth j output 0) <= threshold)
  /\ (forall x y rest,
        output = x :: rest ->
        tail_samples (y :: rest) threshold = tail_samples output threshold)
  /\ (0 <= threshold ->
      forall t, tail_samples output threshold = Z.of_nat t ->
                (t < length output)%nat -> nth t output 0 <> -32768).
Proof.
  assert (Hspec := scan_down_spec output threshold (length output - 1)
                     (Z.of_nat (length output))).
  fold (tail_samples output threshold) in Hspec.
  split; [|split].
  - destruct Hspec as [[Hfb Hquiet] | (t & Ht & Hrange & Hloud & Hquiet)].
    + left. split; [exact Hfb|]. intros j Hj. apply Hquiet. lia.
    + right. exists t. split; [exact Ht|]. split; [lia|].
      split; [exact Hloud|]. intros j Hj. apply Hquiet. lia.
  - intros x y rest ->. unfold tail_samples. simpl length.
    apply scan_down_first.
  - intros Hth t Ht Hlt Hfull.
    destruct Hspec as [[Hfb _] | (t' & Ht' & _ & Hloud & _)].
    + rewrite Hfb in Ht. lia.
    + rewrite Ht' in Ht. apply Nat2Z.inj in Ht. subst t'.
      rewrite Hfull in Hloud. unfold abs16 in Hloud. simpl in Hloud. lia.
Qed.

End ExampleFacts.

(** * The statements on the sample collaborators *)

Lemma process_capture_counts_witness :
  process_capture Demo.loud Demo.hush Demo.demo_pipeline
  = (Demo.after_loud, Returned (Some Demo.loud_payload))
  /\ counted "frames_processed" 1 (stats Demo.demo_pipeline)
       (stats Demo.after_loud).
Proof.
  assert (Hrun : process_capture Demo.loud Demo.hush Demo.demo_pipeline
                 = (Demo.after_loud, Returned (Some Demo.loud_payload)))
    by (vm_compute; reflexivity).
  split; [exact Hrun|].
  exact (proj1 (process_capture_counts _ _ _ _ _ Hrun)).
Defined.

Lemma process_capture_stage_order_witness :
  process_capture Demo.quiet Demo.hush Demo.demo_pipeline
  = (Demo.after_quiet, Returned None)
  /\ exists echo_cancelled denoised,
       calls Demo.after_quiet
       = calls Demo.demo_pipeline
         ++ [AecProcess Demo.quiet Demo.hush; DenoiserProcess echo_cancelled;
             VadIsSpeech denoised]
         ++ [ComfortNoiseAnalyze denoised].
Proof.
  assert (Hrun : process_capture Demo.quiet Demo.hush Demo.demo_pipeline
                 = (Demo.after_quiet, Returned None))
    by (vm_compute; reflexivity).
  split; [exact Hrun|].
  destruct (process_capture_stage_order _ _ _ _ _ Hrun)
    as (ec & dn & b & branch & Haec & Hdn & Hvad & Hcalls & Hbranch).
  exists ec, dn. rewrite Hcalls. f_equal. f_equal.
  destruct b; [|exact Hbranch].
  cbv in Haec. injection Haec as <-.
  cbv in Hdn. injection Hdn as <-.
  cbv in Hvad. discriminate Hvad.
Defined.

Lemma receive_packet_counts_witness :
  receive_packet Demo.loud_payload 0 0 Demo.after_first
  = (Demo.after_second, Returned tt)
  /\ JitterBufferSpec.duplicate_count (jitter_buffer Demo.after_second) = 1
  /\ counted "packets_received" 1 (stats Demo.after_first)
       (stats Demo.after_second).
Proof.
  assert (Hrun : receive_packet Demo.loud_payload 0 0 Demo.after_first
                 = (Demo.after_second, Returned tt))
    by (vm_compute; reflexivity).
  split; [exact Hrun|]. split; [vm_compute; reflexivity|].
  destruct (receive_packet_counts _ _ _ _ _ _ Hrun)
    as (decoded & _ & _ & _ & _ & Hcount & _).
  exact Hcount.
Defined.


Lemma silence_run_keeps_level_witness :
  process_all [(Demo.quiet, Demo.hush); (Demo.quiet, Demo.hush)]
    Demo.after_loud
  = (Demo.after_silence, Returned [None; None])
  /\ Forall (fun r : option payload => r = None) [None; None]
  /\ (get_level_db Demo.after_silence).2 = (get_level_db Demo.after_loud).2.
Proof.
  assert (Hrun : process_all [(Demo.quiet, Demo.hush); (Demo.quiet, Demo.hush)]
                   Demo.after_loud
                 = (Demo.after_silence, Returned [None; None]))
    by (vm_compute; reflexivity).
  assert (Hall : Forall (fun r : option payload => r = None) [None; None])
    by (repeat constructor).
  split; [exact Hrun|]. split; [exact Hall|].
  destruct (silence_run_keeps_level _ _ _ _ Hrun Hall)
    as (_ & _ & _ & _ & Hlevel).
  exact Hlevel.
Defined.

Lemma process_capture_fault_witness :
  is_Some (stats Demo.broken_pipeline !! "frames_processed")
  /\ speech_branch_fault Demo.loud (agc Demo.broken_pipeline)
       (level_meter Demo.broken_pipeline) (codec Demo.broken_pipeline)
       (RuntimeError "agc")
  /\ exists q,
       process_capture Demo.loud Demo.hush Demo.broken_pipeline
       = (q, Raised (RuntimeError "agc"))
       /\ counted "frames_processed" 1 (stats Demo.broken_pipeline) (stats q)
       /\ kept "speech_frames" (stats Demo.broken_pipeline) (stats q)
       /\ kept "bytes_encoded" (stats Demo.broken_pipeline) (stats q).
Proof.
  assert (Hkey : is_Some (stats Demo.broken_pipeline !! "frames_processed"))
    by (exists 0; vm_compute; reflexivity).
  assert (Hfault : speech_branch_fault Demo.loud (agc Demo.broken_pipeline)
                     (level_meter Demo.broken_pipeline)
                     (codec Demo.broken_pipeline) (RuntimeError "agc"))
    by (left; reflexivity).
  split; [exact Hkey|]. split; [exact Hfault|].
  destruct (process_capture_fault Demo.loud Demo.hush Demo.broken_pipeline
              Demo.loud Demo.loud (RuntimeError "agc"))
    as (q & Hrun & Hfp & Hsf & Hbe & _);
    [exact Hkey | reflexivity | reflexivity | reflexivity | exact Hfault |].
  exists q. repeat split; assumption.
Defined.

(** C8, as the claim words it, fails: the result of [get_playback_audio]
    is not what the jitter buffer's [get] yields for every requested
    length; with 8-sample frames a request for 16 samples yields 16 of
    them, [get_playback_audio] only 8. *)
Lemma get_playback_audio_fixed_length :
  ~ (forall num_samples,
       (get_playback_audio Demo.demo_pipeline).2
       = (jitter_buffer_get num_samples (jitter_buffer Demo.demo_pipeline)).2).
Proof.
  intros Hall. specialize (Hall 16). vm_compute in Hall. discriminate Hall.
Qed.

Lemma put_duplicate_witness :
  is_Some (JitterBufferSpec.slots Demo.one_frame_buffer !! 0)
  /\ size (JitterBufferSpec.slots
             (JitterBufferSpec.put Demo.loud 0 7 Demo.one_frame_buffer))
     = size (JitterBufferSpec.slots Demo.one_frame_buffer)
  /\ JitterBufferSpec.duplicate_count
       (JitterBufferSpec.put Demo.loud 0 7 Demo.one_frame_buffer)
     = JitterBufferSpec.duplicate_count Demo.one_frame_buffer + 1.
Proof.
  assert (Hslot : is_Some (JitterBufferSpec.slots Demo.one_frame_buffer !! 0))
    by (exists Demo.f0; vm_compute; reflexivity).
  split; [exact Hslot|].
  destruct (put_duplicate Demo.loud 0 7 Demo.one_frame_buffer Hslot)
    as (_ & Hsize & Hdup & _).
  split; assumption.
Defined.

Lemma get_exact_witness :
  JitterBufferSpec.frames_sized Demo.one_frame_buffer
  /\ exists b1 out,
       JitterBufferSpec.get 16 Demo.one_frame_buffer = (b1, Returned out)
       /\ Z.of_nat (length out) = 16
       /\ JitterBufferSpec.cursor b1 = 16.
Proof.
  assert (Hsized : JitterBufferSpec.frames_sized Demo.one_frame_buffer).
  { apply put_sized; [reflexivity | apply fresh_sized]. }
  split; [exact Hsized|].
  destruct (get_exact 16 Demo.one_frame_buffer) as (b1 & out & Hget & Hlen & Hcur & _).
  - lia.
  - vm_compute. reflexivity.
  - vm_compute. reflexivity.
  - exact Hsized.
  - exists b1, out. repeat split; assumption.
Defined.

Lemma arrivals_play_in_timestamp_order_witness :
  JitterBufferSpec.timed <$> Demo.scenario_arrivals ≡ₚ Demo.scenario_due
  /\ exists b1,
       JitterBufferSpec.get 960
         (JitterBufferSpec.put_all Demo.scenario_arrivals Demo.scenario_buffer)
       = (b1, Returned (Demo.s0 ++ Demo.s1 ++ Demo.s2))
       /\ JitterBufferSpec.cursor b1 = 960
       /\ JitterBufferSpec.slots b1 !! 640 = None.
Proof.
  assert (Hperm : JitterBufferSpec.timed <$> Demo.scenario_arrivals
                  ≡ₚ Demo.scenario_due).
  { apply perm_skip. apply perm_swap. }
  assert (Hplay : JitterBufferSpec.playout
                    (list_to_map Demo.scenario_due
                     ∪ JitterBufferSpec.slots Demo.scenario_buffer)
                    (JitterBufferSpec.cursor Demo.scenario_buffer)
                    (JitterBufferSpec.frame_samples Demo.scenario_buffer) 3
                  = Demo.s0 ++ Demo.s1 ++ Demo.s2)
    by (vm_compute; reflexivity).
  split; [exact Hperm|].
  destruct (arrivals_play_in_timestamp_order Demo.scenario_due
              Demo.scenario_arrivals Demo.scenario_buffer 3)
    as (b1 & Hget & Hcur & _ & _ & Hdue).
  - split; [reflexivity | simpl; lia].
  - lia.
  - exact Hperm.
  - apply (bool_decide_unpack _). vm_compute. reflexivity.
  - intros ts Hts. split; [apply lookup_empty|].
    change (ts ∈ [0; 320; 640]) in Hts.
    rewrite !elem_of_cons, elem_of_nil in Hts.
    destruct Hts as [->|[->|[->|[]]]];
      [exists 0%nat | exists 1%nat | exists 2%nat]; reflexivity.
  - vm_compute. lia.
  - rewrite Hplay in Hget. exists b1. split; [exact Hget|].
    split; [exact Hcur|].
    destruct (Hdue 640 Demo.s2) as (_ & Hgone & _).
    + do 2 apply list_elem_of_further. apply list_elem_of_here.
    + apply Hgone. rewrite Hcur. reflexivity.
Defined.

(** C2, as the claim words it, fails.  One frame of silence has been
    played and the cursor is at 320 when the frame of timestamp 0 arrives;
    the target delay is 640 ticks, so the frame is inside the delay window:
    it is accepted and stored, neither late nor a duplicate.  No [get]
    returns it: every [get] returns silence only, and the frame stays in
    its slot. *)
Lemma frame_in_delay_window_never_played :
  JitterBufferSpec.wf Demo.played_one_frame
  /\ JitterBufferSpec.cursor Demo.played_one_frame
     - JitterBufferSpec.delay_ticks Demo.played_one_frame <= 0
  /\ JitterBufferSpec.slots Demo.played_one_frame !! 0 = None
  /\ JitterBufferSpec.late_count Demo.with_late_frame
     = JitterBufferSpec.late_count Demo.played_one_frame
  /\ JitterBufferSpec.duplicate_count Demo.with_late_frame
     = JitterBufferSpec.duplicate_count Demo.played_one_frame
  /\ JitterBufferSpec.slots Demo.with_late_frame !! 0 = Some Demo.s0
  /\ (forall ns,
        JitterBufferSpec.slots
          (JitterBufferSpec.run (JitterBufferSpec.Get <$> ns)
             Demo.with_late_frame) !! 0 = Some Demo.s0)
  /\ (forall n b1 out,
        JitterBufferSpec.get n Demo.with_late_frame = (b1, Returned out) ->
        out = replicate (Z.to_nat n) 0).
Proof.
  assert (Hslots : JitterBufferSpec.slots Demo.with_late_frame
                   = <[0 := Demo.s0]> ∅)
    by (vm_compute; reflexivity).
  assert (Hbehind : JitterBufferSpec.behind Demo.with_late_frame).
  { intros ts [f Hf]. rewrite Hslots in Hf.
    apply lookup_insert_Some in Hf as [[<- _] | [_ Hf]].
    - vm_compute. reflexivity.
    - rewrite lookup_empty in Hf. discriminate. }
  split; [split; [reflexivity | vm_compute; split; discriminate]|].
  split; [vm_compute; discriminate|].
  split; [vm_compute; reflexivity|].
  split; [vm_compute; reflexivity|].
  split; [vm_compute; reflexivity|].
  split; [rewrite Hslots; apply lookup_insert_eq|].
  split.
  - intros ns. rewrite gets_behind by exact Hbehind.
    rewrite Hslots. apply lookup_insert_eq.
  - intros n b1 out Hget.
    destruct (get_behind n Demo.with_late_frame Hbehind) as (_ & _ & Hout).
    apply Hout. rewrite Hget. reflexivity.
Qed.

(** * The further statements on the sample collaborators *)

Lemma process_capture_raises_only_faults_witness :
  process_capture Demo.loud Demo.hush
    (history [] (init 8000 1 (Demo.AecState 0) (Demo.DenoiserState 0)
                   (Demo.VadState 0) (Demo.BrokenAgc 0) (Demo.ComfortState 0)
                   (Demo.LevelState 0) (Demo.CodecState 0) Demo.demo_buffer))
  = ((process_capture Demo.loud Demo.hush Demo.broken_pipeline).1,
     Raised (RuntimeError "agc"))
  /\ capture_fault Demo.loud Demo.hush Demo.broken_pipeline
       (RuntimeError "agc").
Proof.
  assert (Hrun : process_capture Demo.loud Demo.hush
                   (history (P := Z) (D := list (string * Z)) []
                      (init 8000 1 (Demo.AecState 0) (Demo.DenoiserState 0)
                         (Demo.VadState 0) (Demo.BrokenAgc 0)
                         (Demo.ComfortState 0) (Demo.LevelState 0)
                         (Demo.CodecState 0) Demo.demo_buffer))
                 = ((process_capture Demo.loud Demo.hush
                       Demo.broken_pipeline).1,
                    Raised (RuntimeError "agc")))
    by (vm_compute; reflexivity).
  split; [exact Hrun|].
  exact (process_capture_raises_only_faults [] _ _ _ _ _ _ _ _ _ _ _ _ _ _
           Hrun).
Defined.

Lemma front_end_fault_keeps_stats_witness :
  front_end_fault Demo.loud Demo.hush DemoCall.deaf_pipeline
    (RuntimeError "vad")
  /\ exists q,
       process_capture Demo.loud Demo.hush DemoCall.deaf_pipeline
       = (q, Raised (RuntimeError "vad"))
       /\ stats q = stats DemoCall.deaf_pipeline.
Proof.
  assert (Hfault : front_end_fault Demo.loud Demo.hush DemoCall.deaf_pipeline
                     (RuntimeError "vad")).
  { right. right. exists Demo.loud, Demo.loud.
    split; [reflexivity|]. split; reflexivity. }
  split; [exact Hfault|].
  destruct (front_end_fault_keeps_stats _ _ _ _ Hfault) as (q & Hrun & Hstats & _).
  exists q. split; assumption.
Defined.

Lemma process_all_totals_witness :
  process_all [(Demo.loud, Demo.hush); (Demo.quiet, Demo.hush)]
    Demo.demo_pipeline
  = (DemoCall.after_two_captures, Returned [Some Demo.loud_payload; None])
  /\ counter "frames_processed" (stats DemoCall.after_two_captures)
     = counter "frames_processed" (stats Demo.demo_pipeline) + 2
  /\ counter "bytes_encoded" (stats DemoCall.after_two_captures)
     = counter "bytes_encoded" (stats Demo.demo_pipeline)
       + total_bytes [Some Demo.loud_payload; None].
Proof.
  assert (Hrun : process_all [(Demo.loud, Demo.hush); (Demo.quiet, Demo.hush)]
                   Demo.demo_pipeline
                 = (DemoCall.after_two_captures,
                    Returned [Some Demo.loud_payload; None]))
    by (vm_compute; reflexivity).
  split; [exact Hrun|].
  destruct (process_all_totals _ _ _ _ Hrun) as (_ & Hfp & _ & _ & Hbe & _).
  split; [exact Hfp | exact Hbe].
Defined.

Lemma receive_fault_not_counted_witness :
  receive_fault Demo.loud_payload 0 0 DemoCall.undecodable_pipeline
    (ValueError "payload")
  /\ exists q,
       receive_packet Demo.loud_payload 0 0 DemoCall.undecodable_pipeline
       = (q, Raised (ValueError "payload"))
       /\ stats q = stats DemoCall.undecodable_pipeline.
Proof.
  assert (Hfault : receive_fault Demo.loud_payload 0 0
                     DemoCall.undecodable_pipeline (ValueError "payload"))
    by (left; reflexivity).
  split; [exact Hfault|].
  destruct (receive_fault_not_counted _ _ _ _ _ Hfault) as (q & Hrun & Hstats & _).
  exists q. split; assumption.
Defined.

Lemma reset_stops_at_fault_witness :
  exists k,
    calls (reset DemoCall.deaf_pipeline).1
    = calls DemoCall.deaf_pipeline ++ take k reset_calls
    /\ ((k < 4)%nat ->
        agc (reset DemoCall.deaf_pipeline).1 = agc DemoCall.deaf_pipeline).
Proof.
  destruct (reset_stops_at_fault DemoCall.deaf_pipeline)
    as (k & _ & Hcalls & _ & _ & _ & Hagc & _).
  exists k. split; assumption.
Defined.

Lemma simulate_clocks_witness :
  simulate DemoCall.three_frames Demo.demo_pipeline
  = (DemoCall.after_three, Returned (2, 24))
  /\ counter "packets_sent" (stats DemoCall.after_three)
     = counter "packets_sent" (stats Demo.demo_pipeline) + (2 - 0)
  /\ counter "frames_processed" (stats DemoCall.after_three)
     = counter "frames_processed" (stats Demo.demo_pipeline) + 3.
Proof.
  assert (Hrun : simulate_frames 0 DemoCall.three_frames 0 0 Demo.demo_pipeline
                 = (DemoCall.after_three, Returned (2, 24)))
    by (vm_compute; reflexivity).
  split; [exact Hrun|].
  destruct (simulate_clocks _ _ _ _ _ _ _ Hrun) as (_ & _ & Hps & _ & Hfp & _).
  split; [exact Hps | exact Hfp].
Defined.

Lemma simulate_stamps_witness :
  0 < frame_size Demo.demo_pipeline
  /\ simulate DemoCall.three_frames Demo.demo_pipeline
     = (DemoCall.after_three, Returned (2, 24))
  /\ exists made,
       calls DemoCall.after_three = calls Demo.demo_pipeline ++ made
       /\ StronglySorted Z.lt (put_stamps made).*1.
Proof.
  assert (Hpos : 0 < frame_size Demo.demo_pipeline) by (vm_compute; reflexivity).
  assert (Hrun : simulate_frames 0 DemoCall.three_frames 0 0 Demo.demo_pipeline
                 = (DemoCall.after_three, Returned (2, 24)))
    by (vm_compute; reflexivity).
  split; [exact Hpos|]. split; [exact Hrun|].
  destruct (simulate_stamps _ _ _ _ _ _ _ Hpos Hrun)
    as (made & Hmade & _ & _ & Hsorted & _).
  exists made. split; assumption.
Defined.

Lemma empty_payload_not_sent_witness :
  process_capture [] [] DemoCall.eager_pipeline
  = ((process_capture [] [] DemoCall.eager_pipeline).1, Returned (Some []))
  /\ simulate_frame 0 [] [] 5 40 DemoCall.eager_pipeline
     = (DemoCall.after_empty_frame, Returned (5, 48))
  /\ counter "speech_frames" (stats DemoCall.after_empty_frame)
     = counter "speech_frames" (stats DemoCall.eager_pipeline) + 1
  /\ counter "packets_sent" (stats DemoCall.after_empty_frame)
     = counter "packets_sent" (stats DemoCall.eager_pipeline).
Proof.
  assert (Hcap : process_capture [] [] DemoCall.eager_pipeline
                 = ((process_capture [] [] DemoCall.eager_pipeline).1,
                    Returned (Some [])))
    by (vm_compute; reflexivity).
  assert (Hrun : simulate_frame 0 [] [] 5 40 DemoCall.eager_pipeline
                 = (DemoCall.after_empty_frame, Returned (5, 48)))
    by (vm_compute; reflexivity).
  split; [exact Hcap|]. split; [exact Hrun|].
  destruct (empty_payload_not_sent _ _ _ _ _ _ _ _ _ Hcap Hrun)
    as (_ & Hsf & Hps & _).
  split; [exact Hsf | exact Hps].
Defined.

Lemma detector_frames_full_witness :
  0 < 160
  /\ Z.of_nat (length (Examples.detector_frames 160 DemoCall.two_frames_audio))
     = Z.max 0 ((Z.of_nat (length DemoCall.two_frames_audio) - 1) / 160).
Proof.
  assert (Hfs : 0 < 160) by lia.
  split; [exact Hfs|].
  destruct (detector_frames_full 160 DemoCall.two_frames_audio Hfs)
    as (_ & _ & Hcount).
  exact Hcount.
Defined.

Lemma detector_frames_drop_tail_witness :
  0 < 160 /\ DemoCall.two_frames_audio <> []
  /\ Z.of_nat (length (concat (Examples.detector_frames 160
                                 DemoCall.two_frames_audio)))
     < Z.of_nat (length DemoCall.two_frames_audio).
Proof.
  assert (Hfs : 0 < 160) by lia.
  assert (Hne : DemoCall.two_frames_audio <> []) by discriminate.
  split; [exact Hfs|]. split; [exact Hne|].
  destruct (detector_frames_drop_tail 160 DemoCall.two_frames_audio Hfs Hne)
    as [[_ Hlt] _].
  exact Hlt.
Defined.

Lemma delay_frames_cover_witness :
  0 < 480
  /\ concat (Examples.delay_frames 480 DemoCall.two_frames_audio)
     = DemoCall.two_frames_audio.
Proof.
  assert (Hfs : 0 < 480) by lia.
  split; [exact Hfs|].
  exact (proj1 (delay_frames_cover 480 DemoCall.two_frames_audio Hfs)).
Defined.

Lemma tail_samples_spec_witness :
  Examples.tail_samples [500; 3; 200; 4; -32768] 100 = 2
  /\ Examples.tail_samples [9; 3; 200; 4; -32768] 100
     = Examples.tail_samples [500; 3; 200; 4; -32768] 100.
Proof.
  split; [reflexivity|].
  destruct (tail_samples_spec [500; 3; 200; 4; -32768] 100) as (_ & Hfirst & _).
  exact (Hfirst 500 9 [3; 200; 4; -32768] eq_refl).
Defined.

Lemma counters_never_decrease_witness :
  "bytes_encoded" ∈ counter_names
  /\ exists n,
       stats (history [ProcessCapture Demo.loud Demo.hush; Reset;
                       ReceivePacket Demo.loud_payload 0 0]
                (init 8000 1 (Demo.AecState 0) (Demo.DenoiserState 0)
                   (Demo.VadState 0) (Demo.AgcState 0) (Demo.ComfortState 0)
                   (Demo.LevelState 0) (Demo.CodecState 0) Demo.demo_buffer))
         !! "bytes_encoded" = Some n
       /\ 0 <= n.
Proof.
  assert (Hin : "bytes_encoded" ∈ counter_names)
    by (do 3 apply list_elem_of_further; apply list_elem_of_here).
  split; [exact Hin|].
  exact (proj2 (counters_never_decrease
                  (P := Z) (D := list (string * Z))
                  [ProcessCapture Demo.loud Demo.hush; Reset;
                   ReceivePacket Demo.loud_payload 0 0] Demo.demo_pipeline)
           8000 1 (Demo.AecState 0) (Demo.DenoiserState 0)
           (Demo.VadState 0) (Demo.AgcState 0) (Demo.ComfortState 0)
           (Demo.LevelState 0) (Demo.CodecState 0) Demo.demo_buffer
           "bytes_encoded" Hin).
Defined.

Lemma receive_packet_raises_only_faults_witness :
  receive_packet Demo.loud_payload 0 0
    (history [] (init 8000 1 (Demo.AecState 0) (Demo.DenoiserState 0)
                   (Demo.VadState 0) (Demo.AgcState 0) (Demo.ComfortState 0)
                   (Demo.LevelState 0) (DemoCall.BrokenCodec 0)
                   Demo.demo_buffer))
  = ((receive_packet Demo.loud_payload 0 0 DemoCall.undecodable_pipeline).1,
     Raised (ValueError "payload"))
  /\ receive_fault Demo.loud_payload 0 0 DemoCall.undecodable_pipeline
       (ValueError "payload").
Proof.
  assert (Hrun : receive_packet Demo.loud_payload 0 0
                   (history (P := Z) (D := list (string * Z)) []
                      (init 8000 1 (Demo.AecState 0) (Demo.DenoiserState 0)
                         (Demo.VadState 0) (Demo.AgcState 0)
                         (Demo.ComfortState 0) (Demo.LevelState 0)
                         (DemoCall.BrokenCodec 0) Demo.demo_buffer))
                 = ((receive_packet Demo.loud_payload 0 0
                       DemoCall.undecodable_pipeline).1,
                    Raised (ValueError "payload")))
    by (vm_compute; reflexivity).
  split; [exact Hrun|].
  exact (receive_packet_raises_only_faults [] _ _ _ _ _ _ _ _ _ _ _ _ _ _ _
           Hrun).
Defined.

Lemma test_put_get_passes_witness :
  JitterBufferSpec.create (E := unit)
    (JitterBufferSpec.mkConfig 16000 20 40 200 8)
  = Returned Demo.scenario_buffer
  /\ exists b1 output,
       JitterBufferSpec.get 320
         (JitterBufferSpec.put Demo.s1 320 1
            (JitterBufferSpec.put Demo.s0 0 0 Demo.scenario_buffer))
       = (b1, Returned output)
       /\ length output = 320%nat.
Proof.
  assert (Hcreate : JitterBufferSpec.create (E := unit)
                      (JitterBufferSpec.mkConfig 16000 20 40 200 8)
                    = Returned Demo.scenario_buffer)
    by reflexivity.
  split; [exact Hcreate|].
  destruct (test_put_get_passes 8 Demo.s0 Demo.s1 Demo.scenario_buffer)
    as (b1 & output & Hget & Hlen & _);
    [reflexivity | reflexivity | exact Hcreate |].
  exists b1, output. split; assumption.
Defined.
